(** * English-Speaking-Tutor-App: the transcript reconciler, the gamification
      counter, the conversation history and the PCM audio path

    A shallow embedding of [lib/gamification.ts], [lib/history.ts],
    [components/LivePractice.tsx] and [components/ChatPractice.tsx].

    Modelling conventions.
    - A JavaScript string is the list of its UTF-16 code units.
    - [localStorage] is a record with one slot per key the application
      uses.  A slot is absent, holds text that [JSON.parse] rejects, or holds
      a value of the slot's type: [JSON.parse] gives back what
      [JSON.stringify] was given.  [setItem] is taken to succeed: the quota
      failure that the persistence helpers log and swallow is not modelled.
    - A timestamp is the number of milliseconds since the epoch; an ISO date
      string (the part of [toISOString()] before the 'T') is kept as the
      number of the UTC day it names.  Local time is read through the host's
      time zone, whose offset from UTC may change with the instant.
    - React state is passed explicitly.  The updater functions handed to a
      state setter run once each, in the order in which they were queued and
      each on the result of the previous one, so a handler is the composition
      of its updaters.  A handler runs to completion before the next event is
      handled, and every clock read inside one synchronous handler sees the
      same instant.
    - Audio samples and audio-clock times are rationals: a Float32 sample is a
      dyadic rational and the products and quotients by 32768 performed on
      samples are exact. *)

From Stdlib Require Import ZArith QArith Qminmax Qabs Lia Lqa.
From Stdlib Require Import List String Ascii Bool Sorted Permutation.
From stdpp Require Import base list option.
Import ListNotations.
Open Scope Z_scope.

(** ** JavaScript strings *)

Module JS.

Definition JSString := list N.

(** A string literal of the source, for ASCII text. *)
Definition lit (s : string) : JSString :=
  List.map N_of_ascii (list_ascii_of_string s).

(** ECMAScript WhiteSpace and LineTerminator code points, the ones
    [String.prototype.trim] strips. *)
Definition isWhiteSpace (c : N) : bool :=
  ((9 <=? c) && (c <=? 13) || (c =? 32) || (c =? 160) || (c =? 5760)
   || (8192 <=? c) && (c <=? 8202) || (c =? 8232) || (c =? 8233)
   || (c =? 8239) || (c =? 8287) || (c =? 12288) || (c =? 65279))%N.

Fixpoint trimStart (s : JSString) : JSString :=
  match s with
  | [] => []
  | c :: r => if isWhiteSpace c then trimStart r else s
  end.

Definition trimEnd (s : JSString) : JSString := rev (trimStart (rev s)).

Definition trim (s : JSString) : JSString := trimEnd (trimStart s).

(** ToBoolean on a string: only the empty string is falsy. *)
Definition truthy (s : JSString) : bool :=
  match s with [] => false | _ :: _ => true end.

(** Every code unit is white space (the empty string included). *)
Definition blank (s : JSString) : bool := forallb isWhiteSpace s.

End JS.

(** ** types.ts *)

Inductive Sender := user | ai | status.

(** The sender of the in-flight live transcript: ['user' | 'ai']. *)
Inductive Speaker := User | Ai.

Definition toSender (s : Speaker) : Sender :=
  match s with User => user | Ai => ai end.

Definition Sender_eqb (a b : Sender) : bool :=
  match a, b with
  | user, user | ai, ai | status, status => true
  | _, _ => false
  end.

Module ProgressData.
Record t := mk {
  points : Z;
  streak : Z;
  lastPracticeDate : option Z;   (* UTC day number of an ISO date, or null *)
  speakingSessions : Z;
  writingSessions : Z }.
End ProgressData.

Module Transcription.
Record t := mk { id : Q; sender : Sender; text : JS.JSString }.
End Transcription.

Module Message.
Record t := mk { id : Z; sender : Speaker; text : JS.JSString }.
End Message.

Inductive ConversationType := speak | write.

Module SavedConversation.
Record t := mk {
  id : Z;
  type : ConversationType;
  date : Z;                      (* instant named by the ISO string, in ms *)
  transcript : list Transcription.t }.
End SavedConversation.

(** [id] and [name] are optional in the stored JSON: the lobby loader supplies
    a default for a missing name, and [handleSave] spreads a current session
    that may be null. *)
Module ContinuableSession.
Record t := mk {
  id : option Z;
  name : option JS.JSString;
  date : Z;
  transcript : list Transcription.t }.
End ContinuableSession.

(** ** localStorage *)

Inductive Item (A : Type) : Type :=
| Absent                            (* getItem returns null *)
| Corrupt                           (* text that JSON.parse rejects *)
| Stored (a : A).
Arguments Absent {A}.
Arguments Corrupt {A}.
Arguments Stored {A} a.

Module LocalStorage.
Record t := mk {
  progress : Item ProgressData.t;               (* banglaEnglishTutorProgress *)
  history : Item (list SavedConversation.t);    (* banglaEnglishTutorHistory *)
  sessions : Item (list ContinuableSession.t)   (* continuableLiveSessions *) }.

Definition setProgress (v : Item ProgressData.t) (ls : t) : t :=
  mk v (history ls) (sessions ls).
Definition setHistory (v : Item (list SavedConversation.t)) (ls : t) : t :=
  mk (progress ls) v (sessions ls).
Definition setSessions (v : Item (list ContinuableSession.t)) (ls : t) : t :=
  mk (progress ls) (history ls) v.
End LocalStorage.

(** ** The host's time zone *)

(** The time zone as [Date] consults it.  [offsetAt t] is the offset of
    local time from UTC, in milliseconds, at the instant [t];
    [offsetOfLocal tl] is the offset by which the local time value [tl] is
    read back as an instant.  The two agree except around a change of
    offset, where a local time may occur twice or not at all. *)
Module TimeZone.
Record t := mk {
  offsetAt : Z -> Z;
  offsetOfLocal : Z -> Z }.

(** [LocalTime(t)] and [UTC(tl)] of ECMAScript. *)
Definition localTime (tz : t) (instant : Z) : Z := instant + offsetAt tz instant.
Definition utc (tz : t) (tl : Z) : Z := tl - offsetOfLocal tz tl.

(** A zone whose offset never changes. *)
Definition fixed (offset : Z) : t := mk (fun _ => offset) (fun _ => offset).
End TimeZone.

(** ** lib/gamification.ts *)

Module Gamification.
Import ProgressData.

Definition msPerDay : Z := 86400000.

(** [d.toISOString().split('T')[0]] for the instant [t]. *)
Definition isoDate (t : Z) : Z := t / msPerDay.

(** [d.setDate(d.getDate() - 1)]: the local time value of [t] with the day
    of the month lowered by one and the time within the day kept, which is
    the local time value less one day, read back as an instant in the zone
    [tz]. *)
Definition setDatePrevious (tz : TimeZone.t) (t : Z) : Z :=
  TimeZone.utc tz (TimeZone.localTime tz t - msPerDay).

Definition getDefaultProgress : ProgressData.t :=
  {| points := 0; streak := 0; lastPracticeDate := None;
     speakingSessions := 0; writingSessions := 0 |}.

Definition getProgress (ls : LocalStorage.t) : ProgressData.t :=
  match LocalStorage.progress ls with
  | Stored p => p
  | Absent => getDefaultProgress
  | Corrupt => getDefaultProgress      (* the catch branch *)
  end.

Definition saveProgress (p : ProgressData.t) (ls : LocalStorage.t)
  : LocalStorage.t :=
  LocalStorage.setProgress (Stored p) ls.

Definition addPoints (amount : Z) (ls : LocalStorage.t) : LocalStorage.t :=
  let progress := getProgress ls in
  saveProgress
    {| points := points progress + amount;
       streak := streak progress;
       lastPracticeDate := lastPracticeDate progress;
       speakingSessions := speakingSessions progress;
       writingSessions := writingSessions progress |} ls.

Definition date_eqb (a : option Z) (b : Z) : bool :=
  match a with Some d => d =? b | None => false end.

Definition updateStreak (tz : TimeZone.t) (now : Z) (ls : LocalStorage.t)
  : LocalStorage.t :=
  let progress := getProgress ls in
  let today := isoDate now in
  if date_eqb (lastPracticeDate progress) today then ls
  else
    let yesterdayStr := isoDate (setDatePrevious tz now) in
    let streak' :=
      if date_eqb (lastPracticeDate progress) yesterdayStr
      then streak progress + 1
      else 1 in
    saveProgress
      {| points := points progress;
         streak := streak';
         lastPracticeDate := Some today;
         speakingSessions := speakingSessions progress;
         writingSessions := writingSessions progress |} ls.

Definition incrementSpeakingSessions (ls : LocalStorage.t) : LocalStorage.t :=
  let progress := getProgress ls in
  saveProgress
    {| points := points progress;
       streak := streak progress;
       lastPracticeDate := lastPracticeDate progress;
       speakingSessions := speakingSessions progress + 1;
       writingSessions := writingSessions progress |} ls.

Definition incrementWritingSessions (ls : LocalStorage.t) : LocalStorage.t :=
  let progress := getProgress ls in
  saveProgress
    {| points := points progress;
       streak := streak progress;
       lastPracticeDate := lastPracticeDate progress;
       speakingSessions := speakingSessions progress;
       writingSessions := writingSessions progress + 1 |} ls.

End Gamification.

(** ** lib/history.ts *)

Module History.
Import SavedConversation.

(** [Array.prototype.sort] with the comparator
    [(a, b) => time(b) - time(a)]: the stable arrangement by descending
    date.  [insertByDate x l] puts [x], which preceded every element of
    [l] in the array, in front of the first element not newer than it. *)
Fixpoint insertByDate (x : SavedConversation.t) (l : list SavedConversation.t)
  : list SavedConversation.t :=
  match l with
  | [] => [x]
  | y :: r => if date y <=? date x then x :: y :: r else y :: insertByDate x r
  end.

Definition sortByDateDesc (l : list SavedConversation.t)
  : list SavedConversation.t :=
  fold_right insertByDate [] l.

Definition getSavedConversations (ls : LocalStorage.t)
  : list SavedConversation.t :=
  match LocalStorage.history ls with
  | Stored conversations => sortByDateDesc conversations
  | Absent => sortByDateDesc []
  | Corrupt => []                       (* the catch branch *)
  end.

(** The argument type [Omit<SavedConversation, 'id' | 'date'>]. *)
Record Payload := mkPayload {
  p_type : ConversationType;
  p_transcript : list Transcription.t }.

Definition saveConversation (now : Z) (conversation : Payload)
    (ls : LocalStorage.t) : LocalStorage.t :=
  let history := getSavedConversations ls in
  let newConversation :=
    {| id := now; type := p_type conversation; date := now;
       transcript := p_transcript conversation |} in
  LocalStorage.setHistory (Stored (newConversation :: history)) ls.

Definition clearHistory (ls : LocalStorage.t) : LocalStorage.t :=
  LocalStorage.setHistory Absent ls.

End History.

(** ** The PCM helpers of components/LivePractice.tsx

    [encode]/[decode] (base64) and the byte view of an [Int16Array] are
    mutually inverse representation changes; a payload is kept as the 16-bit
    samples it denotes.  The payloads that [decode] or the [Int16Array] view
    reject are told apart where the message is read. *)

Module Pcm.

(** Truncation towards zero, the first step of the ToInt16 conversion. *)
Definition truncate (q : Q) : Z := Z.quot (Qnum q) (Zpos (Qden q)).

(** ToInt16: what storing a number into an [Int16Array] slot keeps. *)
Definition toInt16 (q : Q) : Z :=
  let int16bit := truncate q mod 65536 in
  if 32768 <=? int16bit then int16bit - 65536 else int16bit.

(** The loop body of [createBlob]: [int16[i] = data[i] * 32768]. *)
Definition encodeSample (x : Q) : Z := toInt16 (x * 32768)%Q.

(** [createBlob], up to the base64 text of the result. *)
Definition createBlob (data : list Q) : list Z := List.map encodeSample data.

(** The loop body of [decodeAudioData]: [dataInt16[k] / 32768.0]. *)
Definition decodeSample (z : Z) : Q := (inject_Z z / 32768)%Q.

Record AudioBuffer := mkBuffer {
  sampleRate : Z;
  frameCount : nat;
  channelData : list (list Q) }.

Definition duration (b : AudioBuffer) : Q :=
  (inject_Z (Z.of_nat (frameCount b)) / inject_Z (sampleRate b))%Q.

Definition decodeAudioData (dataInt16 : list Z) (sampleRate : Z)
    (numChannels : nat) : AudioBuffer :=
  let frameCount := (List.length dataInt16 / numChannels)%nat in
  {| sampleRate := sampleRate;
     frameCount := frameCount;
     channelData :=
       List.map
         (fun channel =>
            List.map
              (fun i => decodeSample (nth (i * numChannels + channel) dataInt16 0))
              (seq 0 frameCount))
         (seq 0 numChannels) |}.

End Pcm.

(** ** components/LivePractice.tsx *)

Module LivePractice.

Module LiveTranscript.
Record t := mk { sender : Speaker; text : JS.JSString }.
End LiveTranscript.

(** An [AudioBufferSourceNode] after [start(when)]. *)
Record SourceNode := mkSource { when : Q; buffer : Pcm.AudioBuffer }.

Definition endsAt (s : SourceNode) : Q := (when s + Pcm.duration (buffer s))%Q.

Inductive View := lobby | practice.

(** The component state the handlers below read or write.  [outputReady]
    stands for [outputAudioContext.current && aiAnalyserRef.current];
    [sources] is the [Set] of nodes in insertion order; [scheduled] records
    the nodes handed to [source.start] since the last interruption (the
    effect on the audio output, which the component itself does not
    store). *)
Record State := mkState {
  view : View;
  isPaused : bool;
  isSaving : bool;
  transcriptionHistory : list Transcription.t;
  liveTranscript : option LiveTranscript.t;
  activeSession : option ContinuableSession.t;
  outputReady : bool;
  nextStartTime : Q;
  sources : list SourceNode;
  scheduled : list SourceNode;
  storage : LocalStorage.t }.

(** What a handler reads from the outside: [Date.now()], [Math.random()],
    the output context's [currentTime] and the host's time zone. *)
Record Env := mkEnv {
  dateNow : Z;
  mathRandom : Q;
  currentTime : Q;
  timeZone : TimeZone.t }.

(** What [atob] and the [Int16Array] view make of a base64 string that is
    not empty: [atob] rejects it, or it denotes bytes, kept as the 16-bit
    samples the byte pairs denote and whether one byte is left over. *)
Inductive Payload :=
| NotBase64
| Bytes (dataInt16 : list Z) (oddByte : bool).

(** The outcomes of [message.serverContent?.modelTurn?.parts[0]?.inlineData.data]:
    undefined or the empty string (no [modelTurn], an empty [parts], no
    [data]); a TypeError (a [modelTurn] without [parts], a first part
    without [inlineData]); or a string that is not empty. *)
Inductive ModelTurn :=
| NoData
| NoInlineData
| Data (payload : Payload).

(** The parts of a [LiveServerMessage] that [onmessage] looks at. *)
Record LiveServerMessage := mkMessage {
  outputTranscription : option JS.JSString;
  inputTranscription : option JS.JSString;
  turnComplete : bool;
  modelTurn : ModelTurn;
  interrupted : bool }.

(** The samples of a message whose audio can be decoded: a whole number of
    byte pairs, and at least one. *)
Definition audioData (message : LiveServerMessage) : option (list Z) :=
  match modelTurn message with
  | Data (Bytes (d :: ds) false) => Some (d :: ds)
  | _ => None
  end.

(** A handler either returns or lets an exception escape; the state
    reached is kept in both cases. *)
Inductive Outcome :=
| Returned (st : State)
| Threw (st : State).

Definition setTranscriptionHistory (f : list Transcription.t -> list Transcription.t)
    (st : State) : State :=
  mkState (view st) (isPaused st) (isSaving st) (f (transcriptionHistory st))
    (liveTranscript st) (activeSession st) (outputReady st) (nextStartTime st)
    (sources st) (scheduled st) (storage st).

Definition setLiveTranscript (v : option LiveTranscript.t) (st : State) : State :=
  mkState (view st) (isPaused st) (isSaving st) (transcriptionHistory st) v
    (activeSession st) (outputReady st) (nextStartTime st) (sources st)
    (scheduled st) (storage st).

Definition withStorage (f : LocalStorage.t -> LocalStorage.t) (st : State) : State :=
  mkState (view st) (isPaused st) (isSaving st) (transcriptionHistory st)
    (liveTranscript st) (activeSession st) (outputReady st) (nextStartTime st)
    (sources st) (scheduled st) (f (storage st)).

Definition withAudio (next : Q) (srcs sched : list SourceNode) (st : State) : State :=
  mkState (view st) (isPaused st) (isSaving st) (transcriptionHistory st)
    (liveTranscript st) (activeSession st) (outputReady st) next srcs sched
    (storage st).

Definition freshId (env : Env) : Q := (inject_Z (dateNow env) + mathRandom env)%Q.

Definition addTranscription (env : Env) (sender : Sender) (text : JS.JSString)
    (st : State) : State :=
  if negb (JS.truthy (JS.trim text)) then st
  else
    setTranscriptionHistory
      (fun prev => prev ++ [Transcription.mk (freshId env) sender text]) st.

Definition addPoints (amount : Z) : State -> State :=
  withStorage (Gamification.addPoints amount).

(** The first [if / else if] of [onmessage]; the boolean is
    [turnCommittedOnSwitch]. *)
Definition transcriptionBlock (env : Env) (message : LiveServerMessage)
    (st : State) : State * bool :=
  match outputTranscription message with
  | Some textChunk =>
      match liveTranscript st with
      | Some (LiveTranscript.mk User prevText) =>
          (setLiveTranscript (Some (LiveTranscript.mk Ai textChunk))
             (addPoints 5 (addTranscription env user prevText st)), true)
      | Some (LiveTranscript.mk Ai prevText) =>
          (setLiveTranscript (Some (LiveTranscript.mk Ai (prevText ++ textChunk))) st,
           false)
      | None =>
          (setLiveTranscript (Some (LiveTranscript.mk Ai ([] ++ textChunk))) st, false)
      end
  | None =>
      match inputTranscription message with
      | Some textChunk =>
          match liveTranscript st with
          | Some (LiveTranscript.mk Ai prevText) =>
              (setLiveTranscript (Some (LiveTranscript.mk User textChunk))
                 (addTranscription env ai prevText st), true)
          | Some (LiveTranscript.mk User prevText) =>
              (setLiveTranscript
                 (Some (LiveTranscript.mk User (prevText ++ textChunk))) st, false)
          | None =>
              (setLiveTranscript (Some (LiveTranscript.mk User ([] ++ textChunk))) st,
               false)
          end
      | None => (st, false)
      end
  end.

Definition turnCompleteBlock (env : Env) (message : LiveServerMessage)
    (turnCommittedOnSwitch : bool) (st : State) : State :=
  if turnComplete message then
    match liveTranscript st with
    | Some prev =>
        if JS.truthy (LiveTranscript.text prev) && negb turnCommittedOnSwitch then
          let st1 :=
            addTranscription env (toSender (LiveTranscript.sender prev))
              (LiveTranscript.text prev) st in
          let st2 :=
            match LiveTranscript.sender prev with
            | User => addPoints 5 st1
            | Ai => st1
            end in
          setLiveTranscript None st2
        else setLiveTranscript None st
    | None => setLiveTranscript None st
    end
  else st.

(** Lines 460 to 484.  The expression for the base64 string may throw;
    past the guard the cursor is clamped first, and [decode] ([atob]),
    the [Int16Array] view (an odd number of bytes) or [createBuffer] (no
    frame at all) may still throw before a node is started. *)
Definition audioBlock (env : Env) (message : LiveServerMessage) (st : State)
  : Outcome :=
  match modelTurn message with
  | NoInlineData => Threw st
  | NoData => Returned st
  | Data payload =>
      if outputReady st then
        let clamped := Qmax (nextStartTime st) (currentTime env) in
        match payload with
        | Bytes ((_ :: _) as dataInt16) false =>
            let audioBuffer := Pcm.decodeAudioData dataInt16 24000 1 in
            let source := mkSource clamped audioBuffer in
            Returned
              (withAudio (clamped + Pcm.duration audioBuffer)%Q
                 (sources st ++ [source]) (scheduled st ++ [source]) st)
        | _ => Threw (withAudio clamped (sources st) (scheduled st) st)
        end
      else Returned st
  end.

Definition interruptedBlock (message : LiveServerMessage) (st : State) : State :=
  if interrupted message then withAudio 0%Q [] [] st else st.

(** The transcript part of [onmessage]: the two blocks that share
    [turnCommittedOnSwitch]. *)
Definition reconcile (env : Env) (message : LiveServerMessage) (st : State)
  : State :=
  let '(st1, turnCommittedOnSwitch) := transcriptionBlock env message st in
  turnCompleteBlock env message turnCommittedOnSwitch st1.

(** [onmessage]: whether the handler returns or throws, and the state it
    has reached by then.  The transcript updaters have run in both cases;
    the interruption is handled only when nothing was thrown before it. *)
Definition onmessageOutcome (env : Env) (message : LiveServerMessage) (st : State)
  : Outcome :=
  let st2 := reconcile env message st in
  match audioBlock env message st2 with
  | Returned st3 => Returned (interruptedBlock message st3)
  | Threw st3 => Threw st3
  end.

(** The state [onmessage] leaves behind, either way. *)
Definition onmessage (env : Env) (message : LiveServerMessage) (st : State)
  : State :=
  match onmessageOutcome env message st with
  | Returned st' => st'
  | Threw st' => st'
  end.

(** The ['ended'] listener of the [i]-th tracked node. *)
Definition onended (i : nat) (st : State) : State :=
  withAudio (nextStartTime st) (delete i (sources st)) (scheduled st) st.

(** Messages and ended-notifications in arrival order. *)
Inductive Event :=
| Message (env : Env) (message : LiveServerMessage)
| Ended (i : nat).

Definition handle (ev : Event) (st : State) : State :=
  match ev with
  | Message env message => onmessage env message st
  | Ended i => onended i st
  end.

Definition run (evs : list Event) (st : State) : State :=
  fold_left (fun s ev => handle ev s) evs st.

(** The transcript fragment [onmessage] takes from a message: the output
    transcription when there is one, else the input transcription. *)
Definition fragmentOf (message : LiveServerMessage)
  : option (Speaker * JS.JSString) :=
  match outputTranscription message with
  | Some textChunk => Some (Ai, textChunk)
  | None =>
      match inputTranscription message with
      | Some textChunk => Some (User, textChunk)
      | None => None
      end
  end.

(** A message that delivers the fragment [text] of [speaker] and no turn
    boundary. *)
Definition isFragment (speaker : Speaker) (text : JS.JSString) (ev : Event)
  : Prop :=
  exists env message,
    ev = Message env message /\
    fragmentOf message = Some (speaker, text) /\
    turnComplete message = false.

(** A message that delivers a turn boundary and no fragment. *)
Definition isTurnComplete (message : LiveServerMessage) : Prop :=
  fragmentOf message = None /\ turnComplete message = true.

(** Every fragment an event delivers consists of white space only. *)
Definition whitespaceOnly (ev : Event) : Prop :=
  match ev with
  | Message _ message =>
      (forall t, outputTranscription message = Some t -> JS.blank t = true) /\
      (forall t, inputTranscription message = Some t -> JS.blank t = true)
  | Ended _ => True
  end.

(** The entry a finalized pending transcript becomes, if any. *)
Definition emitted (id : Q) (speaker : Speaker) (text : JS.JSString)
  : list Transcription.t :=
  if JS.truthy (JS.trim text)
  then [Transcription.mk id (toSender speaker) text]
  else [].

(** Whatever is pending consists of white space only. *)
Definition pendingBlank (st : State) : Prop :=
  match liveTranscript st with
  | Some lt => JS.blank (LiveTranscript.text lt) = true
  | None => True
  end.

(** No node starts before an earlier one in the list has ended. *)
Definition noOverlap (l : list SourceNode) : Prop :=
  ForallOrdPairs (fun a b => (endsAt a <= when b)%Q) l.

(** The playback cursor bounds the schedule: the scheduled nodes do not
    overlap, none ends after [nextStartTime], and the tracked nodes are
    among them. *)
Definition cursorBoundsSchedule (st : State) : Prop :=
  noOverlap (scheduled st)
  /\ Forall (fun a => (endsAt a <= nextStartTime st)%Q) (scheduled st)
  /\ sources st `sublist_of` scheduled st.

Definition points (st : State) : Z :=
  ProgressData.points (Gamification.getProgress (storage st)).

(** The default session name, "অনুশীলন সেশন". *)
Definition defaultSessionName : JS.JSString :=
  [2437; 2472; 2497; 2486; 2496; 2482; 2472; 32; 2488; 2503; 2486; 2472]%N.

(** [finalHistory] of [endSession]. *)
Definition finalHistory (env : Env) (st : State) : list Transcription.t :=
  transcriptionHistory st ++
  match liveTranscript st with
  | Some lt =>
      if JS.truthy (JS.trim (LiveTranscript.text lt)) then
        [Transcription.mk (freshId env) (toSender (LiveTranscript.sender lt))
           (JS.trim (LiveTranscript.text lt))]
      else []
  | None => []
  end.

Definition sameId (cur s : ContinuableSession.t) : Prop :=
  ContinuableSession.id s = ContinuableSession.id cur.

#[local] Instance sameId_dec cur s : Decision (sameId cur s).
Proof. unfold sameId. apply _. Defined.

(** [currentSession ? sessions.findIndex(s => s.id === currentSession.id) : -1] *)
Definition findSessionIndex (cur : option ContinuableSession.t)
    (l : list ContinuableSession.t) : option nat :=
  match cur with
  | Some c => fst <$> list_find (sameId c) l
  | None => None
  end.

Definition isStatus (t : Transcription.t) : bool :=
  Sender_eqb (Transcription.sender t) status.

Definition endSession (isUnmounting skipSave : bool) (env : Env) (st : State)
  : State :=
  let st0 :=
    mkState (view st) false (isSaving st) (transcriptionHistory st)
      (liveTranscript st) (activeSession st) false (nextStartTime st)
      (sources st) (scheduled st) (storage st) in
  let wasActive := bool_decide (is_Some (activeSession st)) in
  let final := finalHistory env st in
  if isUnmounting && wasActive && negb skipSave then
    if (0 <? List.length (List.filter (fun t => negb (isStatus t)) final))%nat then
      match LocalStorage.sessions (storage st) with
      | Corrupt => st0                          (* the catch branch *)
      | saved =>
          let l := match saved with Stored l => l | _ => [] end in
          let l' :=
            match findSessionIndex (activeSession st) l with
            | Some i =>
                match l !! i with
                | Some old =>
                    <[i := ContinuableSession.mk (ContinuableSession.id old)
                             (ContinuableSession.name old) (dateNow env) final]> l
                | None => l
                end
            | None =>
                l ++ [ContinuableSession.mk (Some (dateNow env))
                        (Some defaultSessionName) (dateNow env) final]
            end in
          withStorage (LocalStorage.setSessions (Stored l')) st0
      end
    else st0
  else
    mkState lobby false (isSaving st0) (transcriptionHistory st0) None None
      false (nextStartTime st0) (sources st0) (scheduled st0) (storage st0).

(** The component as first rendered: the [useState] and [useRef] defaults. *)
Definition initialState (ls : LocalStorage.t) : State :=
  mkState lobby false false [] None None false 0%Q [] [] ls.

(** [startSession] on the path where the microphone and the audio contexts
    are obtained.  [nextStartTime] and [sources] are refs that the function
    leaves alone. *)
Definition startSession (sessionToStart : ContinuableSession.t) (st : State)
  : State :=
  mkState practice false (isSaving st)
    (ContinuableSession.transcript sessionToStart) None (Some sessionToStart)
    true (nextStartTime st) (sources st) (scheduled st) (storage st).

(** The name of a new session, "নতুন অনুশীলন সেশন". *)
Definition newSessionName : JS.JSString :=
  [2472; 2468; 2497; 2472; 32; 2437; 2472; 2497; 2486; 2496; 2482; 2472; 32;
   2488; 2503; 2486; 2472]%N.

Definition handleStartNewSession (env : Env) (st : State) : State :=
  startSession
    (ContinuableSession.mk (Some (dateNow env)) (Some newSessionName)
       (dateNow env) []) st.

(** [finalTranscript] of [handleSave]. *)
Definition finalTranscript (env : Env) (st : State) : list Transcription.t :=
  transcriptionHistory st ++
  match liveTranscript st with
  | Some lt =>
      if JS.truthy (LiveTranscript.text lt) then
        [Transcription.mk (inject_Z (dateNow env))
           (toSender (LiveTranscript.sender lt)) (LiveTranscript.text lt)]
      else []
  | None => []
  end.

(** [handleSave] up to the [setTimeout] call; the timer callback is
    [endSession false true]. *)
Definition handleSave (env : Env) (st : State) : Outcome :=
  let st0 :=
    mkState (view st) (isPaused st) true (transcriptionHistory st)
      (liveTranscript st) (activeSession st) (outputReady st) (nextStartTime st)
      (sources st) (scheduled st) (storage st) in
  let final := finalTranscript env st in
  let st1 :=
    withStorage
      (fun ls =>
         Gamification.updateStreak (timeZone env) (dateNow env)
           (Gamification.incrementSpeakingSessions
              (History.saveConversation (dateNow env)
                 (History.mkPayload speak final) ls))) st0 in
  match LocalStorage.sessions (storage st1) with
  | Corrupt => Threw st1                         (* JSON.parse outside any try *)
  | saved =>
      let l := match saved with Stored l => l | _ => [] end in
      let sessionToSave :=
        match activeSession st with
        | Some cur =>
            ContinuableSession.mk (ContinuableSession.id cur)
              (ContinuableSession.name cur) (dateNow env) final
        | None => ContinuableSession.mk None None (dateNow env) final
        end in
      let l' :=
        match findSessionIndex (activeSession st) l with
        | Some i => <[i := sessionToSave]> l
        | None => l ++ [sessionToSave]
        end in
      Returned (withStorage (LocalStorage.setSessions (Stored l')) st1)
  end.

End LivePractice.

(** ** Sample values used in the worked instances below *)

Module Samples.

Definition emptyStorage : LocalStorage.t := LocalStorage.mk Absent Absent Absent.

(** 2024-03-10T12:00:00Z, day 19792, on a clock six hours ahead of UTC. *)
Definition noon : Z := 1710072000000.
Definition dhaka : TimeZone.t := TimeZone.fixed 21600000.

(** New York in 2024: four hours behind UTC from 2024-03-10T07:00Z until
    2024-11-03T06:00Z and five hours behind otherwise.  A local time in the
    hour that is skipped or repeated is read with the offset in force before
    the change. *)
Definition newYork : TimeZone.t :=
  TimeZone.mk
    (fun t => if (1710054000000 <=? t) && (t <? 1730613600000)
              then -14400000 else -18000000)
    (fun tl => if (1710039600000 <=? tl) && (tl <? 1730599200000)
               then -14400000 else -18000000).

(** 2024-03-10T23:30:00Z, which is 19:30 of the same day in New York. *)
Definition eveningAfterChange : Z := 1710113400000.

Definition practised (d : option Z) : LocalStorage.t :=
  LocalStorage.mk (Stored (ProgressData.mk 40 3 d 2 1)) Absent Absent.

Definition env1 : LivePractice.Env := LivePractice.mkEnv noon (1 # 4) (3 # 2) dhaka.
Definition env2 : LivePractice.Env :=
  LivePractice.mkEnv (noon + 700) (1 # 2) (5 # 2) dhaka.
Definition env3 : LivePractice.Env :=
  LivePractice.mkEnv (noon + 1500) (3 # 4) (7 # 2) dhaka.

Definition says (speaker : Speaker) (text : string) : LivePractice.LiveServerMessage :=
  match speaker with
  | Ai =>
      LivePractice.mkMessage (Some (JS.lit text)) None false LivePractice.NoData false
  | User =>
      LivePractice.mkMessage None (Some (JS.lit text)) false LivePractice.NoData false
  end.

Definition turnDone : LivePractice.LiveServerMessage :=
  LivePractice.mkMessage None None true LivePractice.NoData false.

(** A fragment and the turn boundary in one message. *)
Definition saysAndEnds (speaker : Speaker) (text : string)
  : LivePractice.LiveServerMessage :=
  match speaker with
  | Ai =>
      LivePractice.mkMessage (Some (JS.lit text)) None true LivePractice.NoData false
  | User =>
      LivePractice.mkMessage None (Some (JS.lit text)) true LivePractice.NoData false
  end.

Definition audio (samples : list Z) : LivePractice.LiveServerMessage :=
  LivePractice.mkMessage None None false
    (LivePractice.Data (LivePractice.Bytes samples false)) false.

(** A new session just started from the lobby. *)
Definition started : LivePractice.State :=
  LivePractice.handleStartNewSession env1 (LivePractice.initialState emptyStorage).

(** The same session with a single space of user speech pending. *)
Definition pendingSpace : LivePractice.State :=
  LivePractice.onmessage env1 (says User " ") started.

End Samples.

(** ** components/ChatPractice.tsx *)

Module ChatPractice.

(** [chat] is true once the [Chat] object exists (the state is non-null). *)
Record State := mkState {
  chat : bool;
  messages : list Message.t;
  currentInput : JS.JSString;
  isLoading : bool;
  storage : LocalStorage.t }.

(** The clock as read at the four places of [handleSendMessage]: the user
    message id, the assistant message id, the fallback message id and the
    streak update. *)
Record Env := mkEnv {
  nowSubmit : Z;
  nowStream : Z;
  nowCatch : Z;
  nowStreak : Z;
  timeZone : TimeZone.t }.

(** What [chat.sendMessageStream] does: the call itself fails, or it yields
    a stream that delivers [chunks] and then ends normally or by throwing. *)
Inductive Reply :=
| Rejected
| Stream (chunks : list JS.JSString) (failsAfter : bool).

(** Computations that update the state and may throw. *)
Inductive Result (A : Type) : Type :=
| Val (a : A)
| Exn.
Arguments Val {A} a.
Arguments Exn {A}.

Definition M (A : Type) : Type := State -> State * Result A.

Definition ret {A} (a : A) : M A := fun s => (s, Val a).

Definition bind {A B} (m : M A) (k : A -> M B) : M B :=
  fun s => match m s with
           | (s', Val a) => k a s'
           | (s', Exn) => (s', Exn)
           end.

Definition throw {A} : M A := fun s => (s, Exn).

Definition tryCatch {A} (body handler : M A) : M A :=
  fun s => match body s with
           | (s', Exn) => handler s'
           | r => r
           end.

Definition tryFinally {A} (body : M A) (final : M unit) : M A :=
  fun s => match body s with
           | (s', r) => match final s' with
                        | (s'', Val _) => (s'', r)
                        | (s'', Exn) => (s'', Exn)
                        end
           end.

Definition modify (f : State -> State) : M unit := fun s => (f s, Val tt).

Notation "x <- m ;; k" := (bind m (fun x => k))
  (at level 100, m at next level, right associativity).
Notation "m ;;; k" := (bind m (fun _ => k))
  (at level 100, right associativity).

Definition setMessages (f : list Message.t -> list Message.t) : M unit :=
  modify (fun s => mkState (chat s) (f (messages s)) (currentInput s)
                     (isLoading s) (storage s)).

Definition setCurrentInput (v : JS.JSString) : M unit :=
  modify (fun s => mkState (chat s) (messages s) v (isLoading s) (storage s)).

Definition setIsLoading (v : bool) : M unit :=
  modify (fun s => mkState (chat s) (messages s) (currentInput s) v (storage s)).

Definition withStorage (f : LocalStorage.t -> LocalStorage.t) : M unit :=
  modify (fun s => mkState (chat s) (messages s) (currentInput s) (isLoading s)
                     (f (storage s))).

Definition fallbackText : JS.JSString :=
  JS.lit "I'm sorry, I encountered an error. Please try again.".

(** The updater passed to [setMessages] for one received chunk. *)
Definition putReply (aiMessageId : Z) (aiResponseText : JS.JSString)
    (prev : list Message.t) : list Message.t :=
  match List.find (fun m => Message.id m =? aiMessageId) prev with
  | Some _ =>
      List.map
        (fun m => if Message.id m =? aiMessageId
                  then Message.mk (Message.id m) (Message.sender m) aiResponseText
                  else m) prev
  | None => prev ++ [Message.mk aiMessageId Ai aiResponseText]
  end.

(** [for await (const chunk of responseStream)]. *)
Fixpoint forAwait (aiMessageId : Z) (aiResponseText : JS.JSString)
    (chunks : list JS.JSString) (failsAfter : bool) : M unit :=
  match chunks with
  | [] => if failsAfter then throw else ret tt
  | chunk :: rest =>
      let aiResponseText' := aiResponseText ++ chunk in
      setMessages (putReply aiMessageId aiResponseText') ;;;
      forAwait aiMessageId aiResponseText' rest failsAfter
  end.

Definition sendMessageStream (reply : Reply) : M (list JS.JSString * bool) :=
  match reply with
  | Rejected => throw
  | Stream chunks failsAfter => ret (chunks, failsAfter)
  end.

Definition handleSendMessage (env : Env) (reply : Reply) : M unit :=
  fun s =>
    if negb (JS.truthy (JS.trim (currentInput s))) || negb (chat s) || isLoading s
    then ret tt s
    else
      let userMessage := Message.mk (nowSubmit env) User (currentInput s) in
      (setMessages (fun prev => prev ++ [userMessage]) ;;;
       setCurrentInput [] ;;;
       setIsLoading true ;;;
       tryFinally
         (tryCatch
            (responseStream <- sendMessageStream reply ;;
             let aiMessageId := nowStream env + 1 in
             forAwait aiMessageId [] (fst responseStream) (snd responseStream) ;;;
             withStorage (Gamification.addPoints 10) ;;;
             withStorage (Gamification.updateStreak (timeZone env) (nowStreak env)))
            (setMessages
               (fun prev => prev ++ [Message.mk (nowCatch env) Ai fallbackText])))
         (setIsLoading false)) s.

(** Typing into the input box: [onChange] calls [setCurrentInput]. *)
Definition typeInput (v : JS.JSString) (s : State) : State :=
  fst (setCurrentInput v s).

Definition withMessages (l : list Message.t) (s : State) : State :=
  mkState (chat s) l (currentInput s) (isLoading s) (storage s).

(** The guard of [handleSendMessage] lets the submission through. *)
Definition accepts (s : State) : Prop :=
  JS.truthy (JS.trim (currentInput s)) = true
  /\ chat s = true /\ isLoading s = false.

(** The chunks a reply delivers before it ends, and whether it ends by
    throwing. *)
Definition delivered (reply : Reply) : list JS.JSString :=
  match reply with Rejected => [] | Stream chunks _ => chunks end.

Definition fails (reply : Reply) : bool :=
  match reply with Rejected => true | Stream _ failsAfter => failsAfter end.

(** The message list after the updaters of the received chunks have run. *)
Fixpoint received (aiMessageId : Z) (aiResponseText : JS.JSString)
    (chunks : list JS.JSString) (prev : list Message.t) : list Message.t :=
  match chunks with
  | [] => prev
  | chunk :: rest =>
      received aiMessageId (aiResponseText ++ chunk) rest
        (putReply aiMessageId (aiResponseText ++ chunk) prev)
  end.

End ChatPractice.

Module ChatSamples.

(** The greeting is on screen and the user has typed "I like read book". *)
Definition typed : ChatPractice.State :=
  ChatPractice.mkState true
    [Message.mk Samples.noon Ai (JS.lit "Hello! My name is Alex.")]
    (JS.lit "I like read book") false Samples.emptyStorage.

Definition env1 : ChatPractice.Env :=
  ChatPractice.mkEnv (Samples.noon + 5000) (Samples.noon + 5400)
    (Samples.noon + 6100) (Samples.noon + 6100) Samples.dhaka.

Definition env2 : ChatPractice.Env :=
  ChatPractice.mkEnv (Samples.noon + 9000) (Samples.noon + 9300)
    (Samples.noon + 9900) (Samples.noon + 9900) Samples.dhaka.

(** A reply cut off after two chunks. *)
Definition cutOff : list JS.JSString := [JS.lit "That's "; JS.lit "great"].

End ChatSamples.

(** ** More of lib/gamification.ts: practising on several days *)

Module Daily.

(** [updateStreak] called once at each of the instants [ts], in order. *)
Definition practiseAt (tz : TimeZone.t) (ts : list Z) (ls : LocalStorage.t)
  : LocalStorage.t :=
  fold_left (fun s t => Gamification.updateStreak tz t s) ts ls.

(** Each instant falls on the UTC day after the one before it, the first on
    the day after [d]. *)
Fixpoint consecutiveFrom (d : Z) (ts : list Z) : Prop :=
  match ts with
  | [] => True
  | t :: rest => Gamification.isoDate t = d + 1 /\ consecutiveFrom (d + 1) rest
  end.

(** The local time one day before the instant [t] is read back with the
    offset in force at [t]: no change of offset lies in between. *)
Definition sameOffsetDayBefore (tz : TimeZone.t) (t : Z) : Prop :=
  TimeZone.offsetOfLocal tz (TimeZone.localTime tz t - Gamification.msPerDay)
  = TimeZone.offsetAt tz t.

End Daily.

(** ** More of components/LivePractice.tsx: the system instruction *)

Module SystemInstruction.

Definition newline : JS.JSString := [10%N].

(** [Array.prototype.join]. *)
Fixpoint join (sep : JS.JSString) (l : list JS.JSString) : JS.JSString :=
  match l with
  | [] => []
  | [x] => x
  | x :: rest => x ++ sep ++ join sep rest
  end.

Definition isSpoken (item : Transcription.t) : bool :=
  Sender_eqb (Transcription.sender item) user
  || Sender_eqb (Transcription.sender item) ai.

Definition line (item : Transcription.t) : JS.JSString :=
  (if Sender_eqb (Transcription.sender item) ai
   then JS.lit "Alex" else JS.lit "Student")
  ++ JS.lit ": " ++ Transcription.text item.

Definition historyPreamble (history : list Transcription.t) : JS.JSString :=
  join newline (List.map line (List.filter isSpoken history)).

Definition header : JS.JSString :=
  JS.lit "Here is the summary of your previous conversation with the student. Use this context to continue the conversation naturally, remember what you've discussed, and track their progress."
  ++ newline ++ JS.lit "--- PREVIOUS CONVERSATION ---" ++ newline.

Definition footer : JS.JSString :=
  newline ++ JS.lit "--- END OF PREVIOUS CONVERSATION ---" ++ newline ++ newline
  ++ JS.lit "Now, continue the conversation based on this history."
  ++ newline ++ newline.

(** [constructSystemInstruction]; the long constant [SYSTEM_INSTRUCTION] of
    the source is the first argument. *)
Definition constructSystemInstruction (SYSTEM_INSTRUCTION : JS.JSString)
    (history : list Transcription.t) : JS.JSString :=
  match history with
  | [] => SYSTEM_INSTRUCTION
  | _ :: _ => header ++ historyPreamble history ++ footer ++ SYSTEM_INSTRUCTION
  end.

(** What an entry contributes to the instruction, if anything. *)
Definition spoken (history : list Transcription.t) : list (Sender * JS.JSString) :=
  List.map (fun item => (Transcription.sender item, Transcription.text item))
    (List.filter isSpoken history).

End SystemInstruction.

(** ** More of components/LivePractice.tsx: the lobby of resumable sessions *)

Module Lobby.

(** The live state together with the lobby's own state. *)
Record State := mkState {
  live : LivePractice.State;
  continuableSessions : list ContinuableSession.t;
  editingSessionId : option Z;
  editingName : option JS.JSString }.

Definition withLive (f : LivePractice.State -> LivePractice.State) (st : State)
  : State :=
  mkState (f (live st)) (continuableSessions st) (editingSessionId st)
    (editingName st).

(** [s.name || 'অনুশীলন সেশন']: a missing or empty name gets the default. *)
Definition migrate (s : ContinuableSession.t) : ContinuableSession.t :=
  ContinuableSession.mk (ContinuableSession.id s)
    (match ContinuableSession.name s with
     | Some (c :: r) => Some (c :: r)
     | _ => Some LivePractice.defaultSessionName
     end)
    (ContinuableSession.date s) (ContinuableSession.transcript s).

(** [sessions.sort((a, b) => time(b) - time(a))], stable. *)
Fixpoint insertByDate (x : ContinuableSession.t) (l : list ContinuableSession.t)
  : list ContinuableSession.t :=
  match l with
  | [] => [x]
  | y :: r =>
      if ContinuableSession.date y <=? ContinuableSession.date x
      then x :: y :: r else y :: insertByDate x r
  end.

Definition sortByDateDesc (l : list ContinuableSession.t)
  : list ContinuableSession.t :=
  fold_right insertByDate [] l.

(** The mount effect that reads the stored sessions. *)
Definition loadSessions (st : State) : State :=
  match LocalStorage.sessions (LivePractice.storage (live st)) with
  | Stored sessions =>
      mkState (live st) (sortByDateDesc (List.map migrate sessions))
        (editingSessionId st) (editingName st)
  | Absent => st
  | Corrupt => st                            (* the catch branch *)
  end.

(** The component as mounted on a store. *)
Definition mounted (ls : LocalStorage.t) : State :=
  loadSessions (mkState (LivePractice.initialState ls) [] None (Some [])).

Definition hasId (id : Z) (s : ContinuableSession.t) : bool :=
  match ContinuableSession.id s with
  | Some i => i =? id
  | None => false
  end.

Definition handleContinueSession (id : Z) (st : State) : State :=
  match List.find (hasId id) (continuableSessions st) with
  | Some session => withLive (LivePractice.startSession session) st
  | None => st
  end.

(** [confirmed] is the answer to [window.confirm]. *)
Definition handleDeleteSession (confirmed : bool) (id : Z) (st : State) : State :=
  if confirmed then
    let updatedSessions :=
      List.filter (fun s => negb (hasId id s)) (continuableSessions st) in
    mkState
      (LivePractice.withStorage (LocalStorage.setSessions (Stored updatedSessions))
         (live st))
      updatedSessions (editingSessionId st) (editingName st)
  else st.

Definition handleRenameSession (session : ContinuableSession.t) (st : State)
  : State :=
  mkState (live st) (continuableSessions st) (ContinuableSession.id session)
    (ContinuableSession.name session).

(** Typing into the name box. *)
Definition typeName (v : JS.JSString) (st : State) : State :=
  mkState (live st) (continuableSessions st) (editingSessionId st) (Some v).

(** ToBoolean on [number | null]: null, undefined and 0 are falsy. *)
Definition truthyId (o : option Z) : bool :=
  match o with
  | Some z => negb (z =? 0)
  | None => false
  end.

(** [handleConfirmRename]; [None] when [editingName.trim()] is reached with
    an undefined name and throws. *)
Definition handleConfirmRename (st : State) : option State :=
  if negb (truthyId (editingSessionId st)) then
    Some (mkState (live st) (continuableSessions st) None (editingName st))
  else
    match editingName st, editingSessionId st with
    | Some name, Some id =>
        if negb (JS.truthy (JS.trim name)) then
          Some (mkState (live st) (continuableSessions st) None (editingName st))
        else
          let updatedSessions :=
            List.map
              (fun s => if hasId id s
                        then ContinuableSession.mk (ContinuableSession.id s)
                               (Some (JS.trim name)) (ContinuableSession.date s)
                               (ContinuableSession.transcript s)
                        else s)
              (continuableSessions st) in
          Some (mkState
                  (LivePractice.withStorage
                     (LocalStorage.setSessions (Stored updatedSessions)) (live st))
                  updatedSessions None (Some []))
    | _, _ => None
    end.

(** [handleDiscard], up to closing the modal. *)
Definition handleDiscard (env : LivePractice.Env) : State -> State :=
  withLive (LivePractice.endSession false true env).

End Lobby.

(** ** More of components/LivePractice.tsx: the message without its input
       transcription *)

Module Messages.

Definition withoutInput (m : LivePractice.LiveServerMessage)
  : LivePractice.LiveServerMessage :=
  LivePractice.mkMessage (LivePractice.outputTranscription m) None
    (LivePractice.turnComplete m) (LivePractice.modelTurn m)
    (LivePractice.interrupted m).

Definition isMessage (ev : LivePractice.Event) : bool :=
  match ev with
  | LivePractice.Message _ _ => true
  | LivePractice.Ended _ => false
  end.

(** The state a handler leaves behind, whether it returned or threw. *)
Definition stateOf (o : LivePractice.Outcome) : LivePractice.State :=
  match o with
  | LivePractice.Returned st => st
  | LivePractice.Threw st => st
  end.

(** The store [handleSave] has written when it reaches the session list. *)
Definition savedStore (env : LivePractice.Env) (st : LivePractice.State)
  : LocalStorage.t :=
  Gamification.updateStreak (LivePractice.timeZone env) (LivePractice.dateNow env)
    (Gamification.incrementSpeakingSessions
       (History.saveConversation (LivePractice.dateNow env)
          (History.mkPayload speak (LivePractice.finalTranscript env st))
          (LivePractice.storage st))).

(** An entry the reconciler may add: spoken by the user or the assistant,
    with text that is not blank. *)
Definition wellFormedEntry (e : Transcription.t) : Prop :=
  JS.truthy (JS.trim (Transcription.text e)) = true
  /\ Transcription.sender e <> status.

End Messages.

(** ** More of components/ChatPractice.tsx: opening and closing the chat *)

Module ChatShell.

Import ChatPractice.

Definition apologyText : JS.JSString :=
  JS.lit "Sorry, I'm having trouble connecting. Please check your API key and refresh the page.".

(** The chat component before its mount effect has run. *)
Definition unopened (ls : LocalStorage.t) : ChatPractice.State :=
  ChatPractice.mkState false [] [] false ls.

Definition setChat (v : bool) : M unit :=
  modify (fun s => ChatPractice.mkState v (messages s) (currentInput s)
                     (isLoading s) (storage s)).

(** [for await (const chunk of response) { text += chunk.text; }] *)
Definition collect (chunks : list JS.JSString) (failsAfter : bool) : M JS.JSString :=
  if failsAfter then throw else ret (concat chunks).

(** [initChat]; [created] tells whether constructing the client and the chat
    succeeds, [now] and [nowCatch] are the clock at the two message ids. *)
Definition initChat (created : bool) (now nowCatch : Z) (reply : Reply) : M unit :=
  tryCatch
    ((if created then ret tt else throw) ;;;
     setChat true ;;;
     setIsLoading true ;;;
     response <- sendMessageStream reply ;;
     text <- collect (fst response) (snd response) ;;
     setMessages (fun _ => [Message.mk now Ai text]) ;;;
     setIsLoading false)
    (setMessages (fun _ => [Message.mk nowCatch Ai apologyText]) ;;;
     setIsLoading false).

(** The chat component with the modal flags; [closed] records the call of
    [onClose]. *)
Record State := mkState {
  chatState : ChatPractice.State;
  isSaving : bool;
  showSaveModal : bool;
  closed : bool }.

Definition handleEndSession (st : State) : State :=
  if (1 <? List.length (messages (chatState st)))%nat
  then mkState (chatState st) (isSaving st) true (closed st)
  else mkState (chatState st) (isSaving st) (showSaveModal st) true.

(** A chat message as an entry of a saved transcript. *)
Definition toTranscription (m : Message.t) : Transcription.t :=
  Transcription.mk (inject_Z (Message.id m)) (toSender (Message.sender m))
    (Message.text m).

(** [handleSave] up to the [setTimeout] call. *)
Definition handleSave (now : Z) (st : State) : State :=
  let s := chatState st in
  mkState
    (ChatPractice.mkState (chat s) (messages s) (currentInput s) (isLoading s)
       (Gamification.incrementWritingSessions
          (History.saveConversation now
             (History.mkPayload write (List.map toTranscription (messages s)))
             (storage s))))
    true (showSaveModal st) (closed st).

(** The timer callback of [handleSave]. *)
Definition handleSaveTimeout (st : State) : State :=
  mkState (chatState st) false false true.

End ChatShell.

(** ** Sample values for the lobby and the end of a session *)

Module LobbySamples.

(** A stored session from before names were introduced, and a later one. *)
Definition older : ContinuableSession.t :=
  ContinuableSession.mk (Some 1000) None 1000 [].

Definition newer : ContinuableSession.t :=
  ContinuableSession.mk (Some 2000) (Some (JS.lit "Trip")) 2000
    [Transcription.mk 1 user (JS.lit "I go to Sylhet")].

Definition store : LocalStorage.t :=
  LocalStorage.mk Absent Absent (Stored [older; newer]).

(** The lobby with the name box of [newer] open and " Travel " typed. *)
Definition renaming : Lobby.State :=
  Lobby.typeName (JS.lit " Travel ")
    (Lobby.handleRenameSession newer (Lobby.mounted store)).

(** A new session in which the user has finished one turn. *)
Definition spoke : LivePractice.State :=
  LivePractice.onmessage Samples.env2 (Samples.saysAndEnds User "I go to school")
    Samples.started.

(** The session [newer] resumed from the lobby, the user having said more. *)
Definition resumed : LivePractice.State :=
  LivePractice.onmessage Samples.env2 (Samples.saysAndEnds User "and to Dhaka")
    (Lobby.live (Lobby.handleContinueSession 2000 (Lobby.mounted store))).

(** The session [newer] resumed from the lobby, with two spaces of user
    speech pending. *)
Definition resumedPending : LivePractice.State :=
  LivePractice.onmessage Samples.env2 (Samples.says User "  ")
    (Lobby.live (Lobby.handleContinueSession 2000 (Lobby.mounted store))).

End LobbySamples.

(** * Properties *)

(** ** Trimming *)

Lemma trimStart_nil_iff (s : JS.JSString) :
  JS.trimStart s = [] <-> JS.blank s = true.
Proof.
  induction s as [|c r IH]; simpl; [tauto|].
  destruct (JS.isWhiteSpace c); simpl; [exact IH|].
  split; discriminate.
Qed.

Lemma blank_rev (s : JS.JSString) : JS.blank (rev s) = JS.blank s.
Proof.
  unfold JS.blank. apply eq_true_iff_eq.
  rewrite !forallb_forall. split; intros H x Hx; apply H.
  - now apply in_rev in Hx.
  - now apply in_rev.
Qed.

Lemma blank_trimStart (s : JS.JSString) :
  JS.blank (JS.trimStart s) = JS.blank s.
Proof.
  induction s as [|c r IH]; simpl; [reflexivity|].
  destruct (JS.isWhiteSpace c) eqn:E; simpl; [exact IH|].
  now rewrite E.
Qed.

Lemma trim_nil_iff (s : JS.JSString) : JS.trim s = [] <-> JS.blank s = true.
Proof.
  unfold JS.trim, JS.trimEnd.
  rewrite <- (blank_trimStart s), <- (blank_rev (JS.trimStart s)).
  rewrite <- trimStart_nil_iff.
  split; intros H.
  - apply (f_equal (@rev N)) in H. now rewrite rev_involutive in H.
  - now rewrite H.
Qed.

Lemma truthy_trim (s : JS.JSString) :
  JS.truthy (JS.trim s) = negb (JS.blank s).
Proof.
  destruct (JS.blank s) eqn:E.
  - apply trim_nil_iff in E. now rewrite E.
  - destruct (JS.trim s) eqn:T; [|reflexivity].
    apply trim_nil_iff in T. congruence.
Qed.

Lemma blank_app (a b : JS.JSString) :
  JS.blank (a ++ b) = JS.blank a && JS.blank b.
Proof. apply forallb_app. Qed.

Lemma blank_truthy (s : JS.JSString) : JS.blank s = false -> JS.truthy s = true.
Proof. destruct s; [discriminate|reflexivity]. Qed.

Example trim_both_ends : JS.trim (JS.lit "  I go ") = JS.lit "I go".
Proof. reflexivity. Qed.

Example trim_line_separator : JS.trim [8232; 9; 160]%N = [].
Proof. reflexivity. Qed.

Example zero_width_space_is_kept : JS.trim [8203]%N = [8203]%N.
Proof. reflexivity. Qed.

(** ** Streak update *)

Lemma isoDate_setDatePrevious (tz : TimeZone.t) (now : Z) :
  Daily.sameOffsetDayBefore tz now ->
  Gamification.isoDate (Gamification.setDatePrevious tz now)
  = Gamification.isoDate now - 1.
Proof.
  unfold Daily.sameOffsetDayBefore, Gamification.setDatePrevious, TimeZone.utc.
  intros ->. unfold TimeZone.localTime, Gamification.isoDate, Gamification.msPerDay.
  replace (now + TimeZone.offsetAt tz now - 86400000 - TimeZone.offsetAt tz now)
    with (now + (-1) * 86400000) by lia.
  rewrite Z.div_add by lia. lia.
Qed.

(** One call of [updateStreak] on the stored record [p], with [today] the
    UTC date of the call, when no change of offset lies within the last
    local day: when [p] was last practised the day before, the streak grows
    by exactly 1 and the date becomes today; when it was last practised
    today, the store is left as it is; when it was never practised, or last
    practised two or more days ago, the streak becomes 1 and the date
    becomes today.  The other counters are never touched. *)
Lemma updateStreak_cases (tz : TimeZone.t) (now : Z) (ls : LocalStorage.t) :
  Daily.sameOffsetDayBefore tz now ->
  let p := Gamification.getProgress ls in
  let today := Gamification.isoDate now in
  let after := Gamification.getProgress (Gamification.updateStreak tz now ls) in
  (ProgressData.lastPracticeDate p = Some (today - 1) ->
     after = ProgressData.mk (ProgressData.points p) (ProgressData.streak p + 1)
               (Some today) (ProgressData.speakingSessions p)
               (ProgressData.writingSessions p))
  /\ (ProgressData.lastPracticeDate p = Some today ->
        Gamification.updateStreak tz now ls = ls)
  /\ (ProgressData.lastPracticeDate p = None \/
      (exists d, ProgressData.lastPracticeDate p = Some d /\ d <= today - 2) ->
        after = ProgressData.mk (ProgressData.points p) 1 (Some today)
                  (ProgressData.speakingSessions p)
                  (ProgressData.writingSessions p)).
Proof.
  intros R p today after. subst after. unfold Gamification.updateStreak.
  fold p. fold today. rewrite (isoDate_setDatePrevious tz now R). fold today.
  repeat split.
  - intros ->. simpl.
    replace (today - 1 =? today) with false by lia.
    now rewrite Z.eqb_refl.
  - intros ->. simpl. now rewrite Z.eqb_refl.
  - intros [-> | (d & -> & Hd)]; simpl; [reflexivity|].
    replace (d =? today) with false by lia.
    now replace (d =? today - 1) with false by lia.
Qed.

(** C3.  The claim fails where the local day before is not 24 hours long.
    In New York at 2024-03-10T23:30Z, the evening after the clocks went
    forward, today is 2024-03-10 (day 19792); [setDate(getDate() - 1)]
    gives 19:30 of 9 March local time, which is 2024-03-10T00:30Z, so the
    date the code takes for yesterday is today's.  A record last practised
    on 2024-03-09, the day before, with a streak of 3 is therefore given a
    streak of 1, not 4; the same call in a zone of constant offset gives
    4. *)
Theorem updateStreak_resets_streak_after_clock_change :
  let now := Samples.eveningAfterChange in
  let ls := Samples.practised (Some 19791) in
  Gamification.isoDate now = 19792
  /\ ProgressData.lastPracticeDate (Gamification.getProgress ls)
     = Some (Gamification.isoDate now - 1)
  /\ Gamification.isoDate (Gamification.setDatePrevious Samples.newYork now)
     = Gamification.isoDate now
  /\ Gamification.getProgress (Gamification.updateStreak Samples.newYork now ls)
     = ProgressData.mk 40 1 (Some 19792) 2 1
  /\ Gamification.getProgress (Gamification.updateStreak Samples.dhaka now ls)
     = ProgressData.mk 40 4 (Some 19792) 2 1.
Proof. repeat split. Qed.

Lemma updateStreak_dated_today (tz : TimeZone.t) (now : Z) (ls : LocalStorage.t) :
  Gamification.date_eqb
    (ProgressData.lastPracticeDate
       (Gamification.getProgress (Gamification.updateStreak tz now ls)))
    (Gamification.isoDate now) = true.
Proof.
  unfold Gamification.updateStreak.
  destruct (Gamification.date_eqb
              (ProgressData.lastPracticeDate (Gamification.getProgress ls))
              (Gamification.isoDate now)) eqn:D; [exact D|].
  simpl. apply Z.eqb_refl.
Qed.

(** A second call on the same UTC day changes nothing. *)
Lemma updateStreak_same_day (tz : TimeZone.t) (now now' : Z) (ls : LocalStorage.t) :
  Gamification.isoDate now' = Gamification.isoDate now ->
  Gamification.updateStreak tz now' (Gamification.updateStreak tz now ls)
  = Gamification.updateStreak tz now ls.
Proof.
  intros E. pose proof (updateStreak_dated_today tz now ls) as D.
  set (ls1 := Gamification.updateStreak tz now ls) in *.
  unfold Gamification.updateStreak. now rewrite E, D.
Qed.

(** ** Conversation history *)

Section HistorySorting.

Let newerFirst (a b : SavedConversation.t) : Prop :=
  SavedConversation.date b <= SavedConversation.date a.

Lemma insertByDate_Permutation x l :
  Permutation (x :: l) (History.insertByDate x l).
Proof.
  induction l as [|y r IH]; simpl; [reflexivity|].
  destruct (SavedConversation.date y <=? SavedConversation.date x);
    [reflexivity|].
  rewrite perm_swap. now apply perm_skip.
Qed.

Lemma sortByDateDesc_Permutation l : Permutation l (History.sortByDateDesc l).
Proof.
  induction l as [|x r IH]; simpl; [reflexivity|].
  rewrite <- insertByDate_Permutation. now apply perm_skip.
Qed.

Lemma insertByDate_sorted x l :
  StronglySorted newerFirst l ->
  StronglySorted newerFirst (History.insertByDate x l).
Proof.
  induction 1 as [|y r Hs IH Hy]; simpl.
  - repeat constructor.
  - destruct (SavedConversation.date y <=? SavedConversation.date x) eqn:E.
    + apply Z.leb_le in E. constructor; [now constructor|].
      constructor; [exact E|].
      eapply Forall_impl; [|exact Hy]. unfold newerFirst. intros; lia.
    + apply Z.leb_gt in E. constructor; [exact IH|].
      eapply Permutation_Forall; [apply insertByDate_Permutation|].
      constructor; [unfold newerFirst; lia|exact Hy].
Qed.

Lemma sortByDateDesc_sorted l :
  StronglySorted newerFirst (History.sortByDateDesc l).
Proof.
  induction l as [|x r IH]; simpl; [constructor|].
  now apply insertByDate_sorted.
Qed.

Lemma getSavedConversations_sorted ls :
  StronglySorted newerFirst (History.getSavedConversations ls).
Proof.
  unfold History.getSavedConversations.
  destruct (LocalStorage.history ls); try apply sortByDateDesc_sorted.
  constructor.
Qed.

End HistorySorting.

(** C7.  Whatever the history slot holds (nothing, unreadable text or a
    list), saving a payload at instant [now] and reading the collection back
    gives a list that contains the record made of that payload, with the
    transcript exactly as passed in; the list is a rearrangement of the new
    record and the records that could be read before; and every record in it
    is at least as recent as all records after it. *)
Theorem save_then_reload (now : Z) (conversation : History.Payload)
    (ls : LocalStorage.t) :
  let saved :=
    SavedConversation.mk now (History.p_type conversation) now
      (History.p_transcript conversation) in
  let reloaded :=
    History.getSavedConversations (History.saveConversation now conversation ls) in
  In saved reloaded
  /\ Permutation (saved :: History.getSavedConversations ls) reloaded
  /\ StronglySorted
       (fun a b => SavedConversation.date b <= SavedConversation.date a) reloaded.
Proof.
  intros saved reloaded.
  assert (HP : Permutation (saved :: History.getSavedConversations ls) reloaded).
  { subst reloaded. unfold History.saveConversation. fold saved.
    unfold History.getSavedConversations at 2. simpl.
    apply sortByDateDesc_Permutation. }
  split; [|split].
  - eapply Permutation_in; [exact HP|]. now left.
  - exact HP.
  - apply getSavedConversations_sorted.
Qed.

(** ** PCM samples *)

Lemma truncate_bounds (q : Q) (lo hi : Z) :
  lo <= 0 <= hi ->
  (inject_Z lo <= q)%Q -> (q < inject_Z hi + 1)%Q ->
  lo <= Pcm.truncate q <= hi.
Proof.
  intros Hlh Hlo Hhi. unfold Pcm.truncate.
  destruct q as [n d]. unfold Qle, Qlt in *. simpl in *.
  assert (Hd : 0 < Z.pos d) by lia.
  pose proof (Z.quot_rem' n (Z.pos d)) as E.
  destruct (Z_le_gt_dec 0 n) as [Hn|Hn].
  - pose proof (Z.rem_bound_pos n (Z.pos d) Hn Hd).
    pose proof (Z.quot_pos n (Z.pos d) Hn Hd). nia.
  - assert (Hn' : n <= 0) by lia.
    pose proof (Z.rem_bound_pos_neg n (Z.pos d) Hd Hn'). nia.
Qed.

Lemma truncate_error (q : Q) : (Qabs (inject_Z (Pcm.truncate q) - q) < 1)%Q.
Proof.
  unfold Pcm.truncate. destruct q as [n d].
  apply Qabs_Qlt_condition.
  assert (Hd : 0 < Z.pos d) by lia.
  pose proof (Z.quot_rem' n (Z.pos d)) as E.
  unfold Qlt, Qminus, Qplus, Qopp, inject_Z. simpl.
  destruct (Z_le_gt_dec 0 n) as [Hn|Hn].
  - pose proof (Z.rem_bound_pos n (Z.pos d) Hn Hd). nia.
  - assert (Hn' : n <= 0) by lia.
    pose proof (Z.rem_bound_pos_neg n (Z.pos d) Hd Hn'). nia.
Qed.

Lemma toInt16_in_range (q : Q) :
  -32768 <= Pcm.truncate q <= 32767 -> Pcm.toInt16 q = Pcm.truncate q.
Proof.
  intros H. unfold Pcm.toInt16.
  destruct (Z_le_gt_dec 0 (Pcm.truncate q)).
  - rewrite Z.mod_small by lia.
    destruct (32768 <=? Pcm.truncate q) eqn:E; [apply Z.leb_le in E; lia|reflexivity].
  - replace (Pcm.truncate q mod 65536) with (Pcm.truncate q + 65536).
    + destruct (32768 <=? Pcm.truncate q + 65536) eqn:E;
        [lia|apply Z.leb_gt in E; lia].
    + apply Z.mod_unique with (q := -1); lia.
Qed.

(** Below full scale the two loops are inverse up to one quantisation step. *)
Lemma decode_encode_below_full_scale (x : Q) :
  (-1 <= x)%Q -> (x < 1)%Q ->
  (Qabs (Pcm.decodeSample (Pcm.encodeSample x) - x) < 1 / 32768)%Q.
Proof.
  intros Hlo Hhi. unfold Pcm.encodeSample, Pcm.decodeSample.
  assert (R : -32768 <= Pcm.truncate (x * 32768) <= 32767).
  { apply truncate_bounds; [lia| |]; unfold inject_Z; lra. }
  rewrite (toInt16_in_range _ R).
  pose proof (truncate_error (x * 32768)) as E.
  apply Qabs_Qlt_condition in E. apply Qabs_Qlt_condition.
  set (t := inject_Z (Pcm.truncate (x * 32768))) in *.
  assert (I : (/ 32768 == 1 # 32768)%Q) by reflexivity.
  unfold Qdiv. rewrite I. split; lra.
Qed.

(** C6.  At the full-scale sample 1.0 the product 32768 does not fit the
    [Int16Array] slot and wraps to -32768, which decodes to -1.0: the result
    is two units away from the sample, not within one quantisation step. *)
Theorem full_scale_sample_wraps :
  Pcm.createBlob [1%Q] = [-32768]
  /\ (Pcm.decodeSample (Pcm.encodeSample 1) == -1)%Q
  /\ ~ (Qabs (Pcm.decodeSample (Pcm.encodeSample 1) - 1) <= 1 / 32768)%Q.
Proof.
  split; [reflexivity|]. split; [reflexivity|].
  intros H. vm_compute in H. apply H. reflexivity.
Qed.

(** ** The transcript reconciler *)

Section Reconciler.

Import LivePractice.

Lemma addTranscription_history env s text st :
  transcriptionHistory (addTranscription env (toSender s) text st)
  = transcriptionHistory st ++ emitted (freshId env) s text.
Proof.
  unfold addTranscription, emitted.
  destruct (JS.truthy (JS.trim text)); simpl; [reflexivity|now rewrite app_nil_r].
Qed.

Lemma addTranscription_blank env sender text st :
  JS.blank text = true -> addTranscription env sender text st = st.
Proof.
  intros H. unfold addTranscription. now rewrite truthy_trim, H.
Qed.

Lemma points_addPoints amount st : points (addPoints amount st) = points st + amount.
Proof. reflexivity. Qed.

Lemma addTranscription_rest env sender text st :
  liveTranscript (addTranscription env sender text st) = liveTranscript st
  /\ storage (addTranscription env sender text st) = storage st.
Proof.
  unfold addTranscription.
  destruct (negb (JS.truthy (JS.trim text))); simpl; auto.
Qed.

(** The audio blocks leave the transcript and the store alone. *)
Lemma onmessage_transcript env m st :
  transcriptionHistory (onmessage env m st)
    = transcriptionHistory (reconcile env m st)
  /\ liveTranscript (onmessage env m st) = liveTranscript (reconcile env m st)
  /\ storage (onmessage env m st) = storage (reconcile env m st).
Proof.
  unfold onmessage, onmessageOutcome, interruptedBlock, audioBlock.
  destruct (modelTurn m) as [| |[|[|d ds] [|]]];
    destruct (outputReady (reconcile env m st));
    destruct (interrupted m); simpl; auto.
Qed.

Lemma onended_transcript i st :
  transcriptionHistory (onended i st) = transcriptionHistory st
  /\ liveTranscript (onended i st) = liveTranscript st
  /\ storage (onended i st) = storage st.
Proof. unfold onended; simpl; auto. Qed.

Lemma fragmentOf_inv m s c :
  fragmentOf m = Some (s, c) ->
  (s = Ai /\ outputTranscription m = Some c)
  \/ (s = User /\ outputTranscription m = None /\ inputTranscription m = Some c).
Proof.
  unfold fragmentOf.
  destruct (outputTranscription m), (inputTranscription m);
    intros H; inversion H; auto.
Qed.

Lemma fragmentOf_None m :
  fragmentOf m = None ->
  outputTranscription m = None /\ inputTranscription m = None.
Proof.
  unfold fragmentOf.
  destruct (outputTranscription m), (inputTranscription m);
    intros H; inversion H; auto.
Qed.

(** A fragment of the speaker who is already pending, or arriving when
    nothing is pending, only extends the pending text. *)
Lemma reconcile_same_speaker env m st s c :
  fragmentOf m = Some (s, c) -> turnComplete m = false ->
  (liveTranscript st = None \/
   exists t, liveTranscript st = Some (LiveTranscript.mk s t)) ->
  liveTranscript (reconcile env m st)
    = Some (LiveTranscript.mk s
              (match liveTranscript st with
               | Some lt => LiveTranscript.text lt
               | None => []
               end ++ c))
  /\ transcriptionHistory (reconcile env m st) = transcriptionHistory st
  /\ storage (reconcile env m st) = storage st.
Proof.
  intros Hf Htc Hl. unfold reconcile, transcriptionBlock, turnCompleteBlock.
  rewrite Htc.
  destruct (fragmentOf_inv _ _ _ Hf) as [(-> & ->) | (-> & -> & ->)];
    destruct Hl as [-> | (t & ->)]; simpl; auto.
Qed.

(** A fragment of the other speaker finalizes the pending entry once. *)
Lemma reconcile_switch env m st s t s' c :
  fragmentOf m = Some (s', c) ->
  liveTranscript st = Some (LiveTranscript.mk s t) -> s' <> s ->
  transcriptionHistory (reconcile env m st)
    = transcriptionHistory st ++ emitted (freshId env) s t
  /\ (turnComplete m = false ->
      liveTranscript (reconcile env m st) = Some (LiveTranscript.mk s' c)).
Proof.
  intros Hf Hl Hs. unfold reconcile, transcriptionBlock, turnCompleteBlock.
  destruct (fragmentOf_inv _ _ _ Hf) as [(-> & ->) | (-> & -> & ->)];
    rewrite Hl; destruct s; try congruence; simpl;
    destruct (turnComplete m); simpl;
    try rewrite andb_false_r; simpl;
    unfold addPoints; simpl;
    (split; [|try discriminate; auto]).
  - apply (addTranscription_history env User).
  - apply (addTranscription_history env User).
  - apply (addTranscription_history env Ai).
  - apply (addTranscription_history env Ai).
Qed.

(** A turn boundary finalizes what is pending and clears it. *)
Lemma reconcile_turnComplete env m st :
  isTurnComplete m ->
  liveTranscript (reconcile env m st) = None
  /\ transcriptionHistory (reconcile env m st)
     = transcriptionHistory st ++
       match liveTranscript st with
       | Some lt => emitted (freshId env) (LiveTranscript.sender lt)
                      (LiveTranscript.text lt)
       | None => []
       end.
Proof.
  intros [Hf Htc]. apply fragmentOf_None in Hf as [Ho Hi].
  unfold reconcile, transcriptionBlock, turnCompleteBlock.
  rewrite Ho, Hi, Htc.
  destruct (liveTranscript st) as [[s t]|] eqn:Hl; simpl;
    [|now rewrite app_nil_r].
  rewrite andb_true_r. destruct t as [|c r]; simpl.
  - now rewrite app_nil_r.
  - split; [reflexivity|].
    destruct s; unfold addPoints; simpl;
      [apply (addTranscription_history env User)
      |apply (addTranscription_history env Ai)].
Qed.

Lemma run_cons ev evs st : run (ev :: evs) st = run evs (handle ev st).
Proof. reflexivity. Qed.

Lemma run_app evs1 evs2 st : run (evs1 ++ evs2) st = run evs2 (run evs1 st).
Proof. apply fold_left_app. Qed.

Lemma run_same_speaker s texts :
  forall evs st t0,
    Forall2 (isFragment s) texts evs ->
    liveTranscript st = Some (LiveTranscript.mk s t0) ->
    liveTranscript (run evs st) = Some (LiveTranscript.mk s (t0 ++ concat texts))
    /\ transcriptionHistory (run evs st) = transcriptionHistory st.
Proof.
  induction texts as [|c texts IH]; intros evs st t0 HF Hl.
  - inversion HF; subst. simpl. now rewrite app_nil_r.
  - inversion HF as [|? ev ? evs' (env & m & -> & Hf & Htc) HF']; subst.
    rewrite run_cons. simpl handle.
    destruct (onmessage_transcript env m st) as (Hh & Hlt & _).
    destruct (reconcile_same_speaker env m st s c Hf Htc) as (Hl1 & Hh1 & _);
      [right; eauto|].
    rewrite Hl in Hl1. simpl in Hl1.
    destruct (IH evs' (onmessage env m st) (t0 ++ c) HF') as (Hl2 & Hh2);
      [congruence|].
    rewrite Hl2, Hh2, Hh, Hh1. simpl. now rewrite app_assoc.
Qed.

Lemma run_fresh_turn s texts evs st :
  Forall2 (isFragment s) texts evs ->
  liveTranscript st = None ->
  transcriptionHistory (run evs st) = transcriptionHistory st
  /\ liveTranscript (run evs st)
     = match texts with
       | [] => None
       | _ :: _ => Some (LiveTranscript.mk s (concat texts))
       end.
Proof.
  intros HF Hl. destruct HF as [|c ev texts evs (env & m & -> & Hf & Htc) HF].
  - simpl. now rewrite Hl.
  - rewrite run_cons. simpl handle.
    destruct (onmessage_transcript env m st) as (Hh & Hlt & _).
    destruct (reconcile_same_speaker env m st s c Hf Htc) as (Hl1 & Hh1 & _);
      [now left|].
    rewrite Hl in Hl1. simpl in Hl1.
    destruct (run_same_speaker s texts evs (onmessage env m st) c HF)
      as (Hl2 & Hh2); [congruence|].
    rewrite Hl2, Hh2, Hh, Hh1. now simpl.
Qed.

(** The entries a whole turn of one speaker produces, from a state with
    nothing pending. *)
Lemma run_turn s texts evs env m st :
  liveTranscript st = None ->
  Forall2 (isFragment s) texts evs ->
  isTurnComplete m ->
  transcriptionHistory (run (evs ++ [Message env m]) st)
    = transcriptionHistory st ++ emitted (freshId env) s (concat texts)
  /\ liveTranscript (run (evs ++ [Message env m]) st) = None.
Proof.
  intros Hl HF Hm. rewrite run_app. simpl.
  destruct (run_fresh_turn s texts evs st HF Hl) as (Hh & Hlt).
  destruct (onmessage_transcript env m (run evs st)) as (Hh1 & Hl1 & _).
  destruct (reconcile_turnComplete env m (run evs st) Hm) as (Hl2 & Hh2).
  rewrite Hh1, Hl1, Hh2, Hl2, Hh, Hlt. split; [|reflexivity].
  destruct texts; simpl; reflexivity.
Qed.

End Reconciler.

(** C1 (as amended).  Starting with nothing pending, fragments of one speaker
    delivered with no turn boundary in between and followed by one
    turn-complete message finalize exactly one entry, whose text is the
    concatenation of the fragments in arrival order, when that concatenation
    has a character that is not white space; they finalize no entry when it
    has none.  Either way nothing is left pending. *)
Theorem same_speaker_turn (s : Speaker) (texts : list JS.JSString)
    (evs : list LivePractice.Event) (env : LivePractice.Env)
    (m : LivePractice.LiveServerMessage) (st : LivePractice.State) :
  LivePractice.liveTranscript st = None ->
  Forall2 (LivePractice.isFragment s) texts evs ->
  LivePractice.isTurnComplete m ->
  let st' := LivePractice.run (evs ++ [LivePractice.Message env m]) st in
  (JS.blank (concat texts) = false ->
     LivePractice.transcriptionHistory st'
     = LivePractice.transcriptionHistory st ++
       [Transcription.mk (LivePractice.freshId env) (toSender s) (concat texts)])
  /\ (JS.blank (concat texts) = true ->
        LivePractice.transcriptionHistory st' = LivePractice.transcriptionHistory st)
  /\ LivePractice.liveTranscript st' = None.
Proof.
  intros Hl HF Hm st'.
  destruct (run_turn s texts evs env m st Hl HF Hm) as (Hh & Hn).
  subst st'. rewrite Hh. unfold LivePractice.emitted. rewrite truthy_trim.
  repeat split; try assumption; intros ->; [reflexivity|apply app_nil_r].
Qed.

(** The scenario of the specification: "I go", " school", turn complete. *)
Lemma same_speaker_turn_witness :
  LivePractice.transcriptionHistory
    (LivePractice.run
       ([LivePractice.Message Samples.env1 (Samples.says User "I go");
         LivePractice.Message Samples.env2 (Samples.says User " school")]
        ++ [LivePractice.Message Samples.env3 Samples.turnDone])
       Samples.started)
  = [Transcription.mk (LivePractice.freshId Samples.env3) user
       (JS.lit "I go school")].
Proof.
  apply (proj1 (same_speaker_turn User [JS.lit "I go"; JS.lit " school"]
                  [LivePractice.Message Samples.env1 (Samples.says User "I go");
                   LivePractice.Message Samples.env2 (Samples.says User " school")]
                  Samples.env3 Samples.turnDone Samples.started
                  eq_refl
                  (Forall2_cons _ _
                     (ex_intro _ Samples.env1
                        (ex_intro _ (Samples.says User "I go")
                           (conj eq_refl (conj eq_refl eq_refl))))
                     (Forall2_cons _ _
                        (ex_intro _ Samples.env2
                           (ex_intro _ (Samples.says User " school")
                              (conj eq_refl (conj eq_refl eq_refl))))
                        (Forall2_nil _)))
                  (conj eq_refl eq_refl))).
  reflexivity.
Defined.

(** Without the condition on white space the property fails: one user
    fragment holding a single space, followed by a turn-complete message,
    finalizes no entry at all. *)
Lemma same_speaker_turn_counterexample :
  LivePractice.transcriptionHistory
    (LivePractice.run
       [LivePractice.Message Samples.env1 (Samples.says User " ");
        LivePractice.Message Samples.env2 Samples.turnDone]
       Samples.started) = []
  /\ ~ (exists entry,
          LivePractice.transcriptionHistory
            (LivePractice.run
               [LivePractice.Message Samples.env1 (Samples.says User " ");
                LivePractice.Message Samples.env2 Samples.turnDone]
               Samples.started) = [entry]
          /\ Transcription.text entry = concat [JS.lit " "]).
Proof.
  split; [reflexivity|]. intros (entry & H & _). discriminate H.
Qed.

Section SpeakerSwitch.

Import LivePractice.

(** What follows a switch: the new speaker's fragment, then the boundary. *)
Lemma switch_then_boundary env env' m m' st s t s' c :
  liveTranscript st = Some (LiveTranscript.mk s t) ->
  fragmentOf m = Some (s', c) -> s' <> s ->
  turnComplete m = false -> isTurnComplete m' ->
  transcriptionHistory (onmessage env' m' (onmessage env m st))
  = transcriptionHistory st ++ emitted (freshId env) s t
      ++ emitted (freshId env') s' c.
Proof.
  intros Hl Hf Hs Htc Hm'.
  destruct (onmessage_transcript env m st) as (Hh & Hlt & _).
  destruct (reconcile_switch env m st s t s' c Hf Hl Hs) as (Hh1 & Hl1).
  specialize (Hl1 Htc).
  destruct (onmessage_transcript env' m' (onmessage env m st)) as (Hh2 & _).
  destruct (reconcile_turnComplete env' m' (onmessage env m st) Hm') as (_ & Hh3).
  rewrite Hh2, Hh3, Hh, Hh1, Hlt, Hl1. simpl. now rewrite app_assoc.
Qed.

(** A fragment of the other speaker that comes with the turn boundary in
    the same message: the pending entry is finalized once, and the fragment
    is neither emitted nor left pending. *)
Lemma switch_with_boundary env m st s t s' c :
  liveTranscript st = Some (LiveTranscript.mk s t) ->
  fragmentOf m = Some (s', c) -> s' <> s ->
  turnComplete m = true ->
  transcriptionHistory (onmessage env m st)
  = transcriptionHistory st ++ emitted (freshId env) s t
  /\ liveTranscript (onmessage env m st) = None.
Proof.
  intros Hl Hf Hs Htc.
  destruct (onmessage_transcript env m st) as (Hh & Hlt & _).
  destruct (reconcile_switch env m st s t s' c Hf Hl Hs) as (Hh1 & _).
  rewrite Hh, Hlt, Hh1. split; [reflexivity|].
  unfold reconcile, transcriptionBlock, turnCompleteBlock. rewrite Htc.
  destruct (outputTranscription m), (inputTranscription m),
    (liveTranscript st) as [[[|] t0]|]; simpl;
    rewrite ?andb_false_r, ?andb_true_r; simpl;
    repeat match goal with
      | |- context [JS.truthy ?x] => destruct (JS.truthy x); simpl
      end;
    reflexivity.
Qed.

(** A fragment of the pending speaker that comes with the turn boundary in
    the same message is part of the finalized text. *)
Lemma turnCompleteBlock_unflagged env m st :
  turnComplete m = true ->
  transcriptionHistory (turnCompleteBlock env m false st)
  = transcriptionHistory st ++
    match liveTranscript st with
    | Some lt => emitted (freshId env) (LiveTranscript.sender lt)
                   (LiveTranscript.text lt)
    | None => []
    end
  /\ liveTranscript (turnCompleteBlock env m false st) = None.
Proof.
  intros Htc. unfold turnCompleteBlock. rewrite Htc.
  destruct (liveTranscript st) as [[s t]|] eqn:Hl; simpl;
    [|now rewrite app_nil_r].
  rewrite andb_true_r. destruct t as [|c r]; simpl.
  - now rewrite app_nil_r.
  - split; [|reflexivity].
    destruct s; unfold addPoints; simpl;
      [apply (addTranscription_history env User)
      |apply (addTranscription_history env Ai)].
Qed.

Lemma fragment_with_boundary env m st s c :
  fragmentOf m = Some (s, c) -> turnComplete m = true ->
  (liveTranscript st = None \/
   exists t, liveTranscript st = Some (LiveTranscript.mk s t)) ->
  transcriptionHistory (onmessage env m st)
  = transcriptionHistory st ++
    emitted (freshId env) s
      (match liveTranscript st with
       | Some lt => LiveTranscript.text lt
       | None => []
       end ++ c)
  /\ liveTranscript (onmessage env m st) = None.
Proof.
  intros Hf Htc Hl.
  destruct (onmessage_transcript env m st) as (Hh & Hlt & _).
  rewrite Hh, Hlt. clear Hh Hlt.
  unfold reconcile, transcriptionBlock.
  destruct (fragmentOf_inv _ _ _ Hf) as [(-> & ->) | (-> & -> & ->)];
    destruct Hl as [-> | (t & ->)];
    match goal with
    | |- context [turnCompleteBlock env m false ?x] =>
        destruct (turnCompleteBlock_unflagged env m x Htc) as (-> & ->)
    end;
    split; reflexivity.
Qed.

Lemma handle_whitespace ev st :
  whitespaceOnly ev -> pendingBlank st ->
  transcriptionHistory (handle ev st) = transcriptionHistory st
  /\ pendingBlank (handle ev st).
Proof.
  destruct ev as [env m|i]; simpl; intros Hw Hp.
  2:{ unfold pendingBlank in *. simpl. auto. }
  destruct Hw as [Ho Hi].
  destruct (onmessage_transcript env m st) as (Hh & Hlt & _).
  unfold pendingBlank in *. rewrite Hh, Hlt. clear Hh Hlt.
  unfold reconcile, transcriptionBlock, turnCompleteBlock, addPoints.
  destruct (outputTranscription m) as [co|] eqn:Eo;
    [specialize (Ho co eq_refl)|clear Ho];
    (destruct (inputTranscription m) as [ci|] eqn:Ei;
     [specialize (Hi ci eq_refl)|clear Hi]);
    destruct (liveTranscript st) as [[[|] t]|] eqn:El; simpl in Hp;
    rewrite ?(addTranscription_blank _ _ _ _ Hp);
    destruct (turnComplete m); simpl;
    rewrite ?El; simpl;
    rewrite ?andb_false_r, ?andb_true_r; simpl;
    repeat match goal with
      | |- context [JS.truthy ?x] => destruct (JS.truthy x); simpl
      end;
    rewrite ?addTranscription_blank;
    simpl; rewrite ?blank_app, ?Hp, ?Ho, ?Hi; auto.
Qed.

(** The turn boundary may also come in the message of the last fragment. *)
Lemma run_turn_closed_by_fragment s texts last evs env m st :
  liveTranscript st = None ->
  Forall2 (isFragment s) texts evs ->
  fragmentOf m = Some (s, last) -> turnComplete m = true ->
  transcriptionHistory (run (evs ++ [Message env m]) st)
  = transcriptionHistory st ++ emitted (freshId env) s (concat (texts ++ [last]))
  /\ liveTranscript (run (evs ++ [Message env m]) st) = None.
Proof.
  intros Hl HF Hf Htc. rewrite run_app. simpl.
  destruct (run_fresh_turn s texts evs st HF Hl) as (Hh & Hlt).
  destruct (fragment_with_boundary env m (run evs st) s last Hf Htc) as (Hh1 & Hl1).
  { rewrite Hlt. destruct texts; eauto. }
  rewrite Hh1, Hl1, Hh, Hlt. split; [|reflexivity].
  rewrite concat_app. simpl. rewrite app_nil_r.
  destruct texts; reflexivity.
Qed.

End SpeakerSwitch.

(** When a message brings a fragment of a speaker other than the pending one
    and no turn boundary, the pending text is finalized by that message, as
    one entry when its trimmed text is not empty and as none otherwise, and
    the new speaker's pending entry holds exactly the new fragment; once the
    turn boundary has arrived in a message of its own, each of the two texts
    has been emitted once, the older first. *)
Lemma switch_without_boundary (env env' : LivePractice.Env)
    (m m' : LivePractice.LiveServerMessage) (st : LivePractice.State)
    (s s' : Speaker) (t c : JS.JSString) :
  LivePractice.liveTranscript st = Some (LivePractice.LiveTranscript.mk s t) ->
  LivePractice.fragmentOf m = Some (s', c) -> s' <> s ->
  LivePractice.turnComplete m = false ->
  LivePractice.transcriptionHistory (LivePractice.onmessage env m st)
  = LivePractice.transcriptionHistory st ++
    (if JS.truthy (JS.trim t)
     then [Transcription.mk (LivePractice.freshId env) (toSender s) t] else [])
  /\ LivePractice.liveTranscript (LivePractice.onmessage env m st)
     = Some (LivePractice.LiveTranscript.mk s' c)
  /\ (LivePractice.isTurnComplete m' ->
      LivePractice.transcriptionHistory
        (LivePractice.onmessage env' m' (LivePractice.onmessage env m st))
      = LivePractice.transcriptionHistory st ++
        (if JS.truthy (JS.trim t)
         then [Transcription.mk (LivePractice.freshId env) (toSender s) t] else [])
        ++ (if JS.truthy (JS.trim c)
            then [Transcription.mk (LivePractice.freshId env') (toSender s') c]
            else [])).
Proof.
  intros Hl Hf Hs Htc.
  destruct (onmessage_transcript env m st) as (Hh & Hlt & _).
  destruct (reconcile_switch env m st s t s' c Hf Hl Hs) as (Hh1 & Hl1).
  split; [|split].
  - rewrite Hh, Hh1. reflexivity.
  - rewrite Hlt. now apply Hl1.
  - intros Hm'.
    apply (switch_then_boundary env env' m m' st s t s' c Hl Hf Hs Htc Hm').
Qed.

(** The user says "I go", the assistant answers "You", then the turn ends. *)
Lemma switch_without_boundary_scenario :
  LivePractice.transcriptionHistory
    (LivePractice.onmessage Samples.env3 Samples.turnDone
       (LivePractice.onmessage Samples.env2 (Samples.says Ai "You")
          (LivePractice.onmessage Samples.env1 (Samples.says User "I go")
             Samples.started)))
  = [Transcription.mk (LivePractice.freshId Samples.env2) user (JS.lit "I go");
     Transcription.mk (LivePractice.freshId Samples.env3) ai (JS.lit "You")].
Proof.
  apply (proj2 (proj2 (switch_without_boundary Samples.env2 Samples.env3
                         (Samples.says Ai "You") Samples.turnDone
                         (LivePractice.onmessage Samples.env1
                            (Samples.says User "I go") Samples.started)
                         User Ai (JS.lit "I go") (JS.lit "You")
                         eq_refl eq_refl
                         (fun H : Ai = User =>
                            eq_ind Ai (fun x => match x with Ai => True | User => False end)
                              I User H)
                         eq_refl))
               (conj eq_refl eq_refl)).
Defined.

(** C2.  The user's "I go" is pending when one message brings the assistant's
    fragment "You" together with the turn boundary.  The user's entry is
    finalized, but "You" is neither emitted nor left pending: the fragment is
    lost across the switch.  Delivered as two messages, the same fragment
    and boundary produce both entries. *)
Theorem switch_with_turn_complete_loses_fragment :
  LivePractice.liveTranscript
    (LivePractice.onmessage Samples.env1 (Samples.says User "I go")
       Samples.started)
  = Some (LivePractice.LiveTranscript.mk User (JS.lit "I go"))
  /\ LivePractice.transcriptionHistory
       (LivePractice.onmessage Samples.env2 (Samples.saysAndEnds Ai "You")
          (LivePractice.onmessage Samples.env1 (Samples.says User "I go")
             Samples.started))
     = [Transcription.mk (LivePractice.freshId Samples.env2) user (JS.lit "I go")]
  /\ LivePractice.liveTranscript
       (LivePractice.onmessage Samples.env2 (Samples.saysAndEnds Ai "You")
          (LivePractice.onmessage Samples.env1 (Samples.says User "I go")
             Samples.started))
     = None
  /\ LivePractice.transcriptionHistory
       (LivePractice.onmessage Samples.env3 Samples.turnDone
          (LivePractice.onmessage Samples.env2 (Samples.says Ai "You")
             (LivePractice.onmessage Samples.env1 (Samples.says User "I go")
                Samples.started)))
     = [Transcription.mk (LivePractice.freshId Samples.env2) user (JS.lit "I go");
        Transcription.mk (LivePractice.freshId Samples.env3) ai (JS.lit "You")].
Proof. repeat split. Qed.

(** C8.  From a state in which nothing, or only white space, is pending (the
    start of a session in particular), a sequence of events whose fragments
    all consist of white space never adds an entry to the transcript, whatever
    turn boundaries, speaker switches, audio or interruptions it contains. *)
Theorem whitespace_never_finalized (evs : list LivePractice.Event)
    (st : LivePractice.State) :
  Forall LivePractice.whitespaceOnly evs ->
  LivePractice.pendingBlank st ->
  LivePractice.transcriptionHistory (LivePractice.run evs st)
  = LivePractice.transcriptionHistory st.
Proof.
  intros HF. revert st.
  induction HF as [|ev evs Hev _ IH]; intros st Hp; [reflexivity|].
  rewrite run_cons.
  destruct (handle_whitespace ev st Hev Hp) as (Hh & Hp').
  now rewrite (IH _ Hp'), Hh.
Qed.

(** White space from both speakers and a turn boundary leave the transcript of
    a new session empty. *)
Lemma whitespace_never_finalized_witness :
  LivePractice.transcriptionHistory
    (LivePractice.run
       [LivePractice.Message Samples.env1 (Samples.says User " ");
        LivePractice.Message Samples.env2 (Samples.says Ai "  ");
        LivePractice.Message Samples.env3 Samples.turnDone]
       Samples.started)
  = LivePractice.transcriptionHistory Samples.started.
Proof.
  apply (whitespace_never_finalized
           [LivePractice.Message Samples.env1 (Samples.says User " ");
            LivePractice.Message Samples.env2 (Samples.says Ai "  ");
            LivePractice.Message Samples.env3 Samples.turnDone]
           Samples.started).
  - repeat constructor; simpl; intros t H; inversion H; reflexivity.
  - exact I.
Defined.

Section Award.

Import LivePractice.

(** One message adds at most one entry; when the entry it adds is the
    user's, the counter has grown by 5; and the counter never moves by any
    other amount. *)
Lemma onmessage_award env m st :
  (transcriptionHistory (onmessage env m st) = transcriptionHistory st
   \/ exists e,
        transcriptionHistory (onmessage env m st) = transcriptionHistory st ++ [e]
        /\ (Transcription.sender e = user ->
            points (onmessage env m st) = points st + 5))
  /\ (points (onmessage env m st) = points st
      \/ points (onmessage env m st) = points st + 5).
Proof.
  destruct (onmessage_transcript env m st) as (Hh & _ & Hs).
  unfold points. rewrite Hh, Hs. clear Hh Hs.
  unfold reconcile, transcriptionBlock, turnCompleteBlock, addPoints,
    addTranscription.
  destruct (outputTranscription m), (inputTranscription m),
    (liveTranscript st) as [[[|] t]|], (turnComplete m); simpl;
    rewrite ?andb_false_r, ?andb_true_r; simpl;
    repeat match goal with
      | |- context [JS.truthy ?x] => destruct (JS.truthy x); simpl
      end;
    split; eauto; right; eexists; split; eauto; simpl; congruence.
Qed.

End Award.

(** C4.  The award is not tied to an emitted entry.  In a new session the user
    fragment " " followed by an assistant fragment leaves the transcript
    without any entry, yet the counter has grown by 5.  With an empty pending
    user text the switch awards 5 points as well, while the turn-complete
    path, which tests the text first, awards nothing. *)
Theorem blank_user_turn_awards_points :
  LivePractice.transcriptionHistory
    (LivePractice.run
       [LivePractice.Message Samples.env1 (Samples.says User " ");
        LivePractice.Message Samples.env2 (Samples.says Ai "Hi")]
       Samples.started) = []
  /\ LivePractice.points
       (LivePractice.run
          [LivePractice.Message Samples.env1 (Samples.says User " ");
           LivePractice.Message Samples.env2 (Samples.says Ai "Hi")]
          Samples.started)
     = LivePractice.points Samples.started + 5
  /\ LivePractice.points
       (LivePractice.run
          [LivePractice.Message Samples.env1 (Samples.says User "");
           LivePractice.Message Samples.env2 (Samples.says Ai "Hi")]
          Samples.started)
     = LivePractice.points Samples.started + 5
  /\ LivePractice.points
       (LivePractice.run
          [LivePractice.Message Samples.env1 (Samples.says User "");
           LivePractice.Message Samples.env2 Samples.turnDone]
          Samples.started)
     = LivePractice.points Samples.started.
Proof. repeat split. Qed.

(** ** Playback scheduling *)

Section Playback.

Import LivePractice.

Lemma reconcile_audio env m st :
  outputReady (reconcile env m st) = outputReady st
  /\ nextStartTime (reconcile env m st) = nextStartTime st
  /\ sources (reconcile env m st) = sources st
  /\ scheduled (reconcile env m st) = scheduled st.
Proof.
  unfold reconcile, transcriptionBlock, turnCompleteBlock, addPoints,
    addTranscription.
  destruct (outputTranscription m), (inputTranscription m),
    (liveTranscript st) as [[[|] t]|], (turnComplete m); simpl;
    rewrite ?andb_false_r, ?andb_true_r; simpl;
    repeat match goal with
      | |- context [JS.truthy ?x] => destruct (JS.truthy x); simpl
      end;
    auto.
Qed.

Lemma duration_decodeAudioData (data : list Z) :
  Pcm.duration (Pcm.decodeAudioData data 24000 1)
  = (inject_Z (Z.of_nat (List.length data)) / 24000)%Q.
Proof.
  unfold Pcm.duration, Pcm.decodeAudioData.
  cbn [Pcm.frameCount Pcm.sampleRate]. now rewrite Nat.div_1_r.
Qed.

Lemma duration_nonneg (data : list Z) :
  (0 <= Pcm.duration (Pcm.decodeAudioData data 24000 1))%Q.
Proof.
  rewrite duration_decodeAudioData. unfold Qdiv.
  apply Qmult_le_0_compat.
  - unfold Qle; simpl; lia.
  - now apply Qinv_le_0_compat.
Qed.

Lemma noOverlap_snoc l x :
  noOverlap l -> Forall (fun a => (endsAt a <= when x)%Q) l ->
  noOverlap (l ++ [x]).
Proof.
  unfold noOverlap. induction 1 as [|a l Ha Hl IH]; intros HF; simpl.
  - repeat constructor.
  - inversion HF; subst. constructor; [|now apply IH].
    apply Forall_app. split; [exact Ha|]. now repeat constructor.
Qed.

Lemma audioData_Some m l :
  audioData m = Some l -> modelTurn m = Data (Bytes l false).
Proof.
  unfold audioData.
  destruct (modelTurn m) as [| |[|[|d ds] [|]]]; intros H; inversion H.
  reflexivity.
Qed.

(** The audio block on a chunk that is played. *)
Lemma onmessage_schedules env m st d ds :
  audioData m = Some (d :: ds) -> outputReady st = true ->
  interrupted m = false ->
  let node :=
    mkSource (Qmax (nextStartTime st) (currentTime env))
      (Pcm.decodeAudioData (d :: ds) 24000 1) in
  scheduled (onmessage env m st) = scheduled st ++ [node]
  /\ sources (onmessage env m st) = sources st ++ [node]
  /\ nextStartTime (onmessage env m st) = endsAt node.
Proof.
  intros Ha Hr Hi node. apply audioData_Some in Ha.
  destruct (reconcile_audio env m st) as (Er & En & Es & Ec).
  unfold onmessage, onmessageOutcome, audioBlock, interruptedBlock.
  rewrite Ha, Er, Hr, Hi, En, Es, Ec. subst node.
  repeat split; reflexivity.
Qed.

Lemma onmessage_cursorBoundsSchedule env m st :
  cursorBoundsSchedule st -> cursorBoundsSchedule (onmessage env m st).
Proof.
  intros (Hn & Hf & Hs).
  destruct (reconcile_audio env m st) as (Er & En & Es & Ec).
  assert (Hc : (nextStartTime st <= Qmax (nextStartTime st) (currentTime env))%Q)
    by apply Q.le_max_l.
  assert (Hf' : Forall
                  (fun a => (endsAt a <= Qmax (nextStartTime st) (currentTime env))%Q)
                  (scheduled st)).
  { eapply Forall_impl; [|exact Hf]. simpl. intros a Ha.
    now apply Qle_trans with (nextStartTime st). }
  unfold cursorBoundsSchedule, onmessage, onmessageOutcome, audioBlock,
    interruptedBlock.
  destruct (modelTurn m) as [| |[|[|d ds] [|]]];
    destruct (outputReady (reconcile env m st));
    destruct (interrupted m); simpl; rewrite ?En, ?Es, ?Ec;
    try solve [repeat split; constructor]; auto.
  set (clamped := Qmax (nextStartTime st) (currentTime env)) in *.
  set (node := mkSource clamped (Pcm.decodeAudioData (d :: ds) 24000 1)).
  pose proof (duration_nonneg (d :: ds)) as Hd.
  repeat split.
  - apply noOverlap_snoc; [exact Hn|].
    eapply Forall_impl; [|exact Hf]. simpl. intros a Ha.
    now apply Qle_trans with (nextStartTime st).
  - apply Forall_app. split.
    + eapply Forall_impl; [|exact Hf]. simpl. intros a Ha.
      apply Qle_trans with (nextStartTime st); [exact Ha|].
      apply Qle_trans with clamped; [exact Hc|]. lra.
    + repeat constructor. unfold endsAt. simpl. apply Qle_refl.
  - now apply sublist_app.
Qed.

Lemma handle_cursorBoundsSchedule ev st :
  cursorBoundsSchedule st -> cursorBoundsSchedule (handle ev st).
Proof.
  destruct ev as [env m|i]; simpl; [apply onmessage_cursorBoundsSchedule|].
  intros (Hn & Hf & Hs). unfold cursorBoundsSchedule, onended. simpl.
  repeat split; auto.
  transitivity (sources st); [apply sublist_delete|exact Hs].
Qed.

Lemma run_cursorBoundsSchedule evs :
  forall st, cursorBoundsSchedule st -> cursorBoundsSchedule (run evs st).
Proof.
  induction evs as [|ev evs IH]; intros st H; [exact H|].
  rewrite run_cons. apply IH. now apply handle_cursorBoundsSchedule.
Qed.

End Playback.

(** C5.  Let a session run through any events from a state whose schedule is
    bounded by the cursor (a session start, where nothing is scheduled, is
    one).  Then an audio chunk that is played is started at the cursor clamped
    to the audio clock, so neither before the clock's current time nor before
    the old cursor; the cursor moves to that start plus the buffer's duration,
    which is the number of samples over 24000; and in the schedule, before
    and after the chunk, no node starts before an earlier one has ended. *)
Theorem playback_never_overlaps (evs : list LivePractice.Event)
    (st0 : LivePractice.State) (env : LivePractice.Env)
    (m : LivePractice.LiveServerMessage) (d : Z) (ds : list Z) :
  LivePractice.cursorBoundsSchedule st0 ->
  LivePractice.audioData m = Some (d :: ds) ->
  LivePractice.outputReady (LivePractice.run evs st0) = true ->
  LivePractice.interrupted m = false ->
  let st := LivePractice.run evs st0 in
  let st' := LivePractice.onmessage env m st in
  exists node,
    LivePractice.scheduled st' = LivePractice.scheduled st ++ [node]
    /\ LivePractice.when node
       = Qmax (LivePractice.nextStartTime st) (LivePractice.currentTime env)
    /\ (LivePractice.currentTime env <= LivePractice.when node)%Q
    /\ (LivePractice.nextStartTime st <= LivePractice.when node)%Q
    /\ Pcm.duration (LivePractice.buffer node)
       = (inject_Z (Z.of_nat (List.length (d :: ds))) / 24000)%Q
    /\ LivePractice.nextStartTime st'
       = (LivePractice.when node + Pcm.duration (LivePractice.buffer node))%Q
    /\ LivePractice.noOverlap (LivePractice.scheduled st)
    /\ LivePractice.noOverlap (LivePractice.scheduled st').
Proof.
  intros H0 Ha Hr Hi st st'.
  destruct (onmessage_schedules env m st d ds Ha Hr Hi) as (Hs & _ & Hn).
  eexists. split; [exact Hs|]. simpl.
  repeat split.
  - apply Q.le_max_r.
  - apply Q.le_max_l.
  - apply duration_decodeAudioData.
  - exact Hn.
  - now apply run_cursorBoundsSchedule.
  - apply (onmessage_cursorBoundsSchedule env m st).
    now apply run_cursorBoundsSchedule.
Qed.

(** Two chunks in a row in a new session. *)
Lemma playback_never_overlaps_witness :
  LivePractice.noOverlap
    (LivePractice.scheduled
       (LivePractice.onmessage Samples.env2 (Samples.audio [4; 5])
          (LivePractice.run
             [LivePractice.Message Samples.env1 (Samples.audio [10; -20; 30])]
             Samples.started))).
Proof.
  destruct (playback_never_overlaps
              [LivePractice.Message Samples.env1 (Samples.audio [10; -20; 30])]
              Samples.started Samples.env2 (Samples.audio [4; 5]) 4 [5])
    as (node & _ & _ & _ & _ & _ & _ & _ & H).
  - repeat split; constructor.
  - reflexivity.
  - reflexivity.
  - reflexivity.
  - exact H.
Defined.

(** ** Saving and ending a live session *)

Section SaveAndEnd.

Import LivePractice.

(** Where the session lands in the stored list: over the entry with the
    same id when there is one, else at the end. *)
Lemma upsert_lookup cur (l : list ContinuableSession.t) v :
  exists i,
    match findSessionIndex (Some cur) l with
    | Some i => <[i := v]> l
    | None => l ++ [v]
    end !! i = Some v.
Proof.
  unfold findSessionIndex.
  destruct (list_find (sameId cur) l) as [[i x]|] eqn:E; simpl.
  - apply list_find_Some in E as (Hi & _).
    exists i. apply list_lookup_insert_eq. now apply lookup_lt_Some in Hi.
  - exists (List.length l). now rewrite lookup_app_r, Nat.sub_diag by lia.
Qed.

Lemma upsert_In cur (l : list ContinuableSession.t) v :
  In v match findSessionIndex (Some cur) l with
       | Some i => <[i := v]> l
       | None => l ++ [v]
       end.
Proof.
  destruct (upsert_lookup cur l v) as (i & Hi).
  apply list_elem_of_In. eapply list_elem_of_lookup_2. exact Hi.
Qed.

Lemma findSessionIndex_None cur (l : list ContinuableSession.t) :
  Forall (fun s => ContinuableSession.id s <> ContinuableSession.id cur) l ->
  findSessionIndex (Some cur) l = None.
Proof.
  intros H. unfold findSessionIndex.
  replace (list_find (sameId cur) l) with (@None (nat * ContinuableSession.t));
    [reflexivity|].
  symmetry. apply list_find_None. exact H.
Qed.

(** [findIndex] gives the first index whose session has the id. *)
Lemma findSessionIndex_first cur (l : list ContinuableSession.t) i s :
  l !! i = Some s ->
  ContinuableSession.id s = ContinuableSession.id cur ->
  (forall j s', l !! j = Some s' ->
                ContinuableSession.id s' = ContinuableSession.id cur ->
                (i <= j)%nat) ->
  findSessionIndex (Some cur) l = Some i.
Proof.
  intros Hi Hs Hfirst. unfold findSessionIndex.
  replace (list_find (sameId cur) l) with (Some (i, s)); [reflexivity|].
  symmetry. apply list_find_Some. split; [exact Hi|]. split; [exact Hs|].
  intros j y Hj Hlt Hy. specialize (Hfirst j y Hj Hy). lia.
Qed.

Lemma findSessionIndex_Some cur (l : list ContinuableSession.t) :
  Exists (fun s => ContinuableSession.id s = ContinuableSession.id cur) l ->
  exists i s,
    findSessionIndex (Some cur) l = Some i
    /\ l !! i = Some s
    /\ ContinuableSession.id s = ContinuableSession.id cur.
Proof.
  intros H. unfold findSessionIndex.
  destruct (list_find (sameId cur) l) as [[i s]|] eqn:F.
  - apply list_find_Some in F as (Hi & Hs & _). exists i, s. auto.
  - apply list_find_None in F. apply Exists_exists in H as (s & Hin & Hs).
    rewrite Forall_forall in F. elim (F s Hin). exact Hs.
Qed.

Lemma updateStreak_slots tz now ls :
  LocalStorage.history (Gamification.updateStreak tz now ls)
    = LocalStorage.history ls
  /\ LocalStorage.sessions (Gamification.updateStreak tz now ls)
     = LocalStorage.sessions ls.
Proof.
  unfold Gamification.updateStreak.
  destruct (Gamification.date_eqb _ _); simpl; auto.
Qed.

Lemma finalTranscript_pending env st lt :
  liveTranscript st = Some lt ->
  JS.truthy (LiveTranscript.text lt) = true ->
  finalTranscript env st
  = transcriptionHistory st ++
    [Transcription.mk (inject_Z (dateNow env))
       (toSender (LiveTranscript.sender lt)) (LiveTranscript.text lt)].
Proof. intros Hl Ht. unfold finalTranscript. now rewrite Hl, Ht. Qed.

End SaveAndEnd.

(** C10.  With a session active, a pending fragment whose raw text is not
    empty and a readable (or absent) session list, [handleSave] returns and
    the pending fragment, untrimmed, is the last entry of the transcript
    stored both in the new saved conversation and in the live-session record
    of the active session, even when the text is white space only.  That
    record takes the place of the first stored session with the id of the
    active one, the rest of the list being kept, or is added at the end when
    no stored session has that id.  [endSession] instead appends the trimmed
    text, and nothing at all when the text is white space only; that is the
    transcript its unmount path stores, at the same place of the list. *)
Theorem save_keeps_untrimmed_pending (env : LivePractice.Env)
    (st : LivePractice.State) (lt : LivePractice.LiveTranscript.t)
    (cur : ContinuableSession.t) :
  LivePractice.liveTranscript st = Some lt ->
  JS.truthy (LivePractice.LiveTranscript.text lt) = true ->
  LivePractice.activeSession st = Some cur ->
  LocalStorage.sessions (LivePractice.storage st) <> Corrupt ->
  let stored :=
    match LocalStorage.sessions (LivePractice.storage st) with
    | Stored l => l
    | _ => []
    end in
  let isFirst (i : nat) (s : ContinuableSession.t) :=
    stored !! i = Some s
    /\ ContinuableSession.id s = ContinuableSession.id cur
    /\ forall j s', stored !! j = Some s' ->
                    ContinuableSession.id s' = ContinuableSession.id cur ->
                    (i <= j)%nat in
  let final :=
    LivePractice.transcriptionHistory st ++
    [Transcription.mk (inject_Z (LivePractice.dateNow env))
       (toSender (LivePractice.LiveTranscript.sender lt))
       (LivePractice.LiveTranscript.text lt)] in
  let record :=
    ContinuableSession.mk (ContinuableSession.id cur) (ContinuableSession.name cur)
      (LivePractice.dateNow env) final in
  (exists st',
     LivePractice.handleSave env st = LivePractice.Returned st'
     /\ LocalStorage.history (LivePractice.storage st')
        = Stored (SavedConversation.mk (LivePractice.dateNow env) speak
                    (LivePractice.dateNow env) final
                  :: History.getSavedConversations (LivePractice.storage st))
     /\ (Forall (fun s => ContinuableSession.id s <> ContinuableSession.id cur)
           stored ->
         LocalStorage.sessions (LivePractice.storage st')
         = Stored (stored ++ [record]))
     /\ (forall i s, isFirst i s ->
         LocalStorage.sessions (LivePractice.storage st')
         = Stored (<[i := record]> stored)))
  /\ LivePractice.finalHistory env st
     = LivePractice.transcriptionHistory st ++
       (if JS.blank (LivePractice.LiveTranscript.text lt) then []
        else [Transcription.mk (LivePractice.freshId env)
                (toSender (LivePractice.LiveTranscript.sender lt))
                (JS.trim (LivePractice.LiveTranscript.text lt))])
  /\ ((0 < List.length
             (List.filter (fun t => negb (LivePractice.isStatus t))
                (LivePractice.finalHistory env st)))%nat ->
      let after :=
        LocalStorage.sessions
          (LivePractice.storage (LivePractice.endSession true false env st)) in
      (Forall (fun s => ContinuableSession.id s <> ContinuableSession.id cur)
         stored ->
       after
       = Stored (stored ++
                 [ContinuableSession.mk (Some (LivePractice.dateNow env))
                    (Some LivePractice.defaultSessionName)
                    (LivePractice.dateNow env)
                    (LivePractice.finalHistory env st)]))
      /\ (forall i s, isFirst i s ->
          after
          = Stored (<[i := ContinuableSession.mk (ContinuableSession.id s)
                             (ContinuableSession.name s)
                             (LivePractice.dateNow env)
                             (LivePractice.finalHistory env st)]> stored))).
Proof.
  intros Hl Ht Ha Hc stored isFirst final record.
  split; [|split].
  - unfold LivePractice.handleSave.
    rewrite (finalTranscript_pending env st lt Hl Ht). fold final.
    cbn [LivePractice.storage LivePractice.withStorage].
    destruct (updateStreak_slots (LivePractice.timeZone env)
                (LivePractice.dateNow env)
                (Gamification.incrementSpeakingSessions
                   (History.saveConversation (LivePractice.dateNow env)
                      (History.mkPayload speak final) (LivePractice.storage st))))
      as (Eh & Es).
    rewrite Es. cbn [LocalStorage.sessions Gamification.incrementSpeakingSessions
      Gamification.saveProgress LocalStorage.setProgress History.saveConversation
      LocalStorage.setHistory].
    rewrite Ha. fold record. subst isFirst. subst stored.
    destruct (LocalStorage.sessions (LivePractice.storage st)) as [| |l] eqn:E;
      [|congruence|];
      eexists; (split; [reflexivity|]);
      cbn [LivePractice.storage LivePractice.withStorage LocalStorage.setSessions
             LocalStorage.history LocalStorage.sessions];
      rewrite Eh; (split; [reflexivity|]); split.
    + intros _. reflexivity.
    + intros i s (Hi & _). discriminate Hi.
    + intros Hall. now rewrite (findSessionIndex_None cur l Hall).
    + intros i s (Hi & Hs & Hfirst).
      now rewrite (findSessionIndex_first cur l i s Hi Hs Hfirst).
  - unfold LivePractice.finalHistory. rewrite Hl, truthy_trim.
    now destruct (JS.blank _).
  - intros Hn after. subst after. unfold LivePractice.endSession.
    rewrite Ha. cbn [andb negb]. rewrite bool_decide_eq_true_2 by eauto.
    cbn [andb]. apply Nat.ltb_lt in Hn. rewrite Hn.
    subst isFirst. subst stored.
    destruct (LocalStorage.sessions (LivePractice.storage st)) as [| |l] eqn:E;
      [|congruence|];
      cbn [LivePractice.storage LivePractice.withStorage LocalStorage.setSessions
             LocalStorage.sessions]; split.
    + intros _. reflexivity.
    + intros i s (Hi & _). discriminate Hi.
    + intros Hall. now rewrite (findSessionIndex_None cur l Hall).
    + intros i s (Hi & Hs & Hfirst).
      now rewrite (findSessionIndex_first cur l i s Hi Hs Hfirst), Hi.
Qed.

(** Two spaces pending when the user saves a session resumed from the
    lobby: the record of that session, the second of the stored list, gets
    the transcript with the two spaces as its last entry. *)
Lemma save_keeps_untrimmed_pending_witness :
  exists st',
    LivePractice.handleSave Samples.env3 LobbySamples.resumedPending
    = LivePractice.Returned st'
    /\ LocalStorage.sessions (LivePractice.storage st')
       = Stored
           [LobbySamples.older;
            ContinuableSession.mk (Some 2000) (Some (JS.lit "Trip"))
              (Samples.noon + 1500)
              [Transcription.mk 1 user (JS.lit "I go to Sylhet");
               Transcription.mk (inject_Z (Samples.noon + 1500)) user
                 (JS.lit "  ")]].
Proof.
  destruct (proj1 (save_keeps_untrimmed_pending Samples.env3
                     LobbySamples.resumedPending
                     (LivePractice.LiveTranscript.mk User (JS.lit "  "))
                     LobbySamples.newer
                     eq_refl eq_refl eq_refl
                     (fun H => eq_ind (Stored [LobbySamples.older; LobbySamples.newer])
                                 (fun x => match x with Corrupt => False | _ => True end)
                                 I Corrupt H)))
    as (st' & H1 & _ & _ & H4).
  exists st'. split; [exact H1|].
  rewrite (H4 1%nat LobbySamples.newer); [reflexivity|].
  split; [reflexivity|]. split; [reflexivity|].
  intros [|j] s' Hj Hid; [|lia].
  inversion Hj; subst s'. discriminate Hid.
Defined.

(** ** The chat session *)

Section Chat.

Import ChatPractice.

Lemma forAwait_run aiMessageId chunks failsAfter :
  forall aiResponseText s,
    forAwait aiMessageId aiResponseText chunks failsAfter s
    = (withMessages (received aiMessageId aiResponseText chunks (messages s)) s,
       if failsAfter then Exn else Val tt).
Proof.
  induction chunks as [|c r IH]; intros acc s; simpl.
  - destruct s; destruct failsAfter; reflexivity.
  - unfold bind, setMessages, modify. rewrite IH. destruct s; reflexivity.
Qed.

Lemma find_fresh aiMessageId (prev : list Message.t) :
  ~ In aiMessageId (List.map Message.id prev) ->
  List.find (fun m => Message.id m =? aiMessageId) prev = None.
Proof.
  induction prev as [|m r IH]; simpl; [reflexivity|]. intros H.
  destruct (Message.id m =? aiMessageId) eqn:E.
  - apply Z.eqb_eq in E. tauto.
  - apply IH. tauto.
Qed.

Lemma find_snoc aiMessageId (prev : list Message.t) x :
  ~ In aiMessageId (List.map Message.id prev) ->
  List.find (fun m => Message.id m =? aiMessageId) (prev ++ [x])
  = if Message.id x =? aiMessageId then Some x else None.
Proof.
  induction prev as [|m r IH]; simpl; [reflexivity|]. intros H.
  destruct (Message.id m =? aiMessageId) eqn:E.
  - apply Z.eqb_eq in E. tauto.
  - apply IH. tauto.
Qed.

Lemma map_fresh aiMessageId text (prev : list Message.t) :
  ~ In aiMessageId (List.map Message.id prev) ->
  List.map
    (fun m => if Message.id m =? aiMessageId
              then Message.mk (Message.id m) (Message.sender m) text else m) prev
  = prev.
Proof.
  induction prev as [|m r IH]; simpl; [reflexivity|]. intros H.
  destruct (Message.id m =? aiMessageId) eqn:E.
  - apply Z.eqb_eq in E. tauto.
  - rewrite IH by tauto. reflexivity.
Qed.

Lemma putReply_fresh aiMessageId text prev :
  ~ In aiMessageId (List.map Message.id prev) ->
  putReply aiMessageId text prev = prev ++ [Message.mk aiMessageId Ai text].
Proof. intros H. unfold putReply. now rewrite find_fresh. Qed.

Lemma putReply_again aiMessageId old text prev :
  ~ In aiMessageId (List.map Message.id prev) ->
  putReply aiMessageId text (prev ++ [Message.mk aiMessageId Ai old])
  = prev ++ [Message.mk aiMessageId Ai text].
Proof.
  intros H. unfold putReply.
  rewrite find_snoc by exact H. simpl.
  rewrite List.map_app, map_fresh by exact H. simpl.
  now rewrite Z.eqb_refl.
Qed.

Lemma received_again aiMessageId chunks prev :
  ~ In aiMessageId (List.map Message.id prev) ->
  forall acc,
    received aiMessageId acc chunks (prev ++ [Message.mk aiMessageId Ai acc])
    = prev ++ [Message.mk aiMessageId Ai (acc ++ concat chunks)].
Proof.
  intros H. induction chunks as [|c r IH]; intros acc; simpl.
  - now rewrite app_nil_r.
  - rewrite putReply_again by exact H. rewrite IH. now rewrite app_assoc.
Qed.

(** With an id no message has yet, the chunks build one assistant message
    holding their concatenation. *)
Lemma received_fresh aiMessageId chunks prev :
  ~ In aiMessageId (List.map Message.id prev) ->
  received aiMessageId [] chunks prev
  = prev ++ match chunks with
            | [] => []
            | _ :: _ => [Message.mk aiMessageId Ai (concat chunks)]
            end.
Proof.
  intros H. destruct chunks as [|c r]; simpl; [now rewrite app_nil_r|].
  rewrite putReply_fresh by exact H. now rewrite received_again.
Qed.

(** What [handleSendMessage] does with an accepted submission. *)
Lemma handleSendMessage_accepted env reply s :
  accepts s ->
  let userMessage := Message.mk (nowSubmit env) User (currentInput s) in
  let shown :=
    received (nowStream env + 1) [] (delivered reply)
      (messages s ++ [userMessage]) in
  handleSendMessage env reply s
  = (if fails reply
     then mkState (chat s)
            (shown ++ [Message.mk (nowCatch env) Ai fallbackText]) [] false
            (storage s)
     else mkState (chat s) shown [] false
            (Gamification.updateStreak (timeZone env) (nowStreak env)
               (Gamification.addPoints 10 (storage s))),
     Val tt).
Proof.
  intros (Hi & Hc & Hl) userMessage shown.
  unfold handleSendMessage. rewrite Hi, Hc, Hl. simpl.
  unfold bind, tryFinally, tryCatch, setMessages, setCurrentInput, setIsLoading,
    modify, sendMessageStream, withStorage.
  destruct reply as [|chunks failsAfter]; simpl;
    [now rewrite ?Hc|].
  rewrite forAwait_run.
  destruct failsAfter; simpl; now rewrite ?Hc.
Qed.

End Chat.

Lemma updateStreak_points (tz : TimeZone.t) (now : Z) (ls : LocalStorage.t) :
  ProgressData.points (Gamification.getProgress (Gamification.updateStreak tz now ls))
  = ProgressData.points (Gamification.getProgress ls).
Proof.
  unfold Gamification.updateStreak.
  destruct (Gamification.date_eqb _ _); reflexivity.
Qed.

(** C9.  A submission that passes the guard and whose reply fails, at the call
    or after any number of chunks, ends without an exception leaving the
    handler.  The message list then is: the earlier messages, the user's
    message, what the received chunks had put on screen, and last the fixed
    fallback text as an assistant message.  The chat object is kept, the
    loading flag is down again and the store is untouched.  A next submission
    with non-blank input passes the guard; if its reply completes, the
    handler returns, the flag is down again and 10 points are added, and,
    the assistant id being one that no message carries yet, the list has
    grown by the user's message and one assistant message holding the
    concatenated chunks. *)
Theorem failed_reply_leaves_chat_usable (env env' : ChatPractice.Env)
    (reply : ChatPractice.Reply) (chunks' : list JS.JSString)
    (input' : JS.JSString) (s : ChatPractice.State) :
  ChatPractice.accepts s ->
  ChatPractice.fails reply = true ->
  let r := ChatPractice.handleSendMessage env reply s in
  let s1 := fst r in
  snd r = ChatPractice.Val tt
  /\ ChatPractice.messages s1
     = ChatPractice.received (ChatPractice.nowStream env + 1) []
         (ChatPractice.delivered reply)
         (ChatPractice.messages s ++
          [Message.mk (ChatPractice.nowSubmit env) User (ChatPractice.currentInput s)])
       ++ [Message.mk (ChatPractice.nowCatch env) Ai ChatPractice.fallbackText]
  /\ ChatPractice.chat s1 = true
  /\ ChatPractice.isLoading s1 = false
  /\ ChatPractice.storage s1 = ChatPractice.storage s
  /\ (JS.truthy (JS.trim input') = true ->
      let r' :=
        ChatPractice.handleSendMessage env' (ChatPractice.Stream chunks' false)
          (ChatPractice.typeInput input' s1) in
      ChatPractice.accepts (ChatPractice.typeInput input' s1)
      /\ snd r' = ChatPractice.Val tt
      /\ ChatPractice.isLoading (fst r') = false
      /\ ProgressData.points
           (Gamification.getProgress (ChatPractice.storage (fst r')))
         = ProgressData.points (Gamification.getProgress (ChatPractice.storage s))
           + 10
      /\ (~ In (ChatPractice.nowStream env' + 1)
              (List.map Message.id
                 (ChatPractice.messages s1 ++
                  [Message.mk (ChatPractice.nowSubmit env') User input'])) ->
          ChatPractice.messages (fst r')
          = ChatPractice.messages s1 ++
            [Message.mk (ChatPractice.nowSubmit env') User input'] ++
            match chunks' with
            | [] => []
            | _ :: _ =>
                [Message.mk (ChatPractice.nowStream env' + 1) Ai (concat chunks')]
            end)).
Proof.
  intros Ha Hf r s1.
  assert (Hc : ChatPractice.chat s = true) by apply Ha.
  subst s1 r. rewrite (handleSendMessage_accepted env reply s Ha), Hf.
  cbn [fst snd ChatPractice.messages ChatPractice.chat ChatPractice.isLoading
         ChatPractice.storage].
  repeat (split; [reflexivity || assumption|]).
  intros Hi.
  set (s1 := ChatPractice.mkState _ _ _ _ _) in *.
  assert (Ha' : ChatPractice.accepts (ChatPractice.typeInput input' s1)).
  { repeat split; [exact Hi|exact Hc]. }
  split; [exact Ha'|].
  rewrite (handleSendMessage_accepted env' _ _ Ha').
  cbn [ChatPractice.fails fst snd ChatPractice.messages ChatPractice.isLoading
         ChatPractice.storage ChatPractice.delivered ChatPractice.typeInput
         ChatPractice.setCurrentInput ChatPractice.modify
         ChatPractice.currentInput] in *.
  repeat (split; [reflexivity|]).
  split; [now rewrite updateStreak_points|].
  intros Hfresh.
  rewrite (received_fresh _ _ _ Hfresh). now rewrite <- app_assoc.
Qed.

(** The reply to "I like read book" breaks off after two chunks; the user
    then sends "Again" and gets the reply "Sure". *)
Lemma failed_reply_leaves_chat_usable_witness :
  ChatPractice.messages
    (fst (ChatPractice.handleSendMessage ChatSamples.env1
            (ChatPractice.Stream ChatSamples.cutOff true) ChatSamples.typed))
  = [Message.mk Samples.noon Ai (JS.lit "Hello! My name is Alex.");
     Message.mk (Samples.noon + 5000) User (JS.lit "I like read book");
     Message.mk (Samples.noon + 5401) Ai (JS.lit "That's great");
     Message.mk (Samples.noon + 6100) Ai ChatPractice.fallbackText]
  /\ ChatPractice.messages
       (fst (ChatPractice.handleSendMessage ChatSamples.env2
               (ChatPractice.Stream [JS.lit "Sure"] false)
               (ChatPractice.typeInput (JS.lit "Again")
                  (fst (ChatPractice.handleSendMessage ChatSamples.env1
                          (ChatPractice.Stream ChatSamples.cutOff true)
                          ChatSamples.typed)))))
     = [Message.mk Samples.noon Ai (JS.lit "Hello! My name is Alex.");
        Message.mk (Samples.noon + 5000) User (JS.lit "I like read book");
        Message.mk (Samples.noon + 5401) Ai (JS.lit "That's great");
        Message.mk (Samples.noon + 6100) Ai ChatPractice.fallbackText;
        Message.mk (Samples.noon + 9000) User (JS.lit "Again");
        Message.mk (Samples.noon + 9301) Ai (JS.lit "Sure")].
Proof.
  destruct (failed_reply_leaves_chat_usable ChatSamples.env1 ChatSamples.env2
              (ChatPractice.Stream ChatSamples.cutOff true) [JS.lit "Sure"]
              (JS.lit "Again") ChatSamples.typed)
    as (_ & H1 & _ & _ & _ & H2).
  - repeat split.
  - reflexivity.
  - split; [exact H1|].
    destruct H2 as (_ & _ & _ & _ & H3); [reflexivity|].
    apply H3. vm_compute. intros H.
    repeat (destruct H as [H|H]; [discriminate H|]). exact H.
Defined.

(** * Further properties of the modelled code *)

(** ** The counters of lib/gamification.ts *)

(** X1.  Awards add up and the three counters do not interfere: two awards
    equal one award of the sum, and awarding points, counting a speaking
    session and counting a writing session give the same store in any
    order, whatever the progress slot held before. *)
Theorem counters_compose (a b : Z) (ls : LocalStorage.t) :
  Gamification.addPoints b (Gamification.addPoints a ls)
  = Gamification.addPoints (a + b) ls
  /\ Gamification.incrementSpeakingSessions (Gamification.addPoints a ls)
     = Gamification.addPoints a (Gamification.incrementSpeakingSessions ls)
  /\ Gamification.incrementWritingSessions (Gamification.addPoints a ls)
     = Gamification.addPoints a (Gamification.incrementWritingSessions ls)
  /\ Gamification.incrementWritingSessions (Gamification.incrementSpeakingSessions ls)
     = Gamification.incrementSpeakingSessions (Gamification.incrementWritingSessions ls).
Proof.
  unfold Gamification.addPoints, Gamification.incrementSpeakingSessions,
    Gamification.incrementWritingSessions, Gamification.saveProgress,
    Gamification.getProgress, LocalStorage.setProgress.
  destruct ls as [[| |p] h s]; simpl; repeat split; try reflexivity;
    now rewrite Z.add_assoc.
Qed.

(** X2.  Whatever the outcome of [updateStreak], the record it leaves is dated
    today, the points and the two session counters are as before, and the
    history and session slots are untouched; a streak that was not negative
    is at least 1 unless the record was already dated today. *)
Theorem updateStreak_frame (tz : TimeZone.t) (now : Z) (ls : LocalStorage.t) :
  let p := Gamification.getProgress ls in
  let after := Gamification.getProgress (Gamification.updateStreak tz now ls) in
  ProgressData.lastPracticeDate after = Some (Gamification.isoDate now)
  /\ ProgressData.points after = ProgressData.points p
  /\ ProgressData.speakingSessions after = ProgressData.speakingSessions p
  /\ ProgressData.writingSessions after = ProgressData.writingSessions p
  /\ LocalStorage.history (Gamification.updateStreak tz now ls)
     = LocalStorage.history ls
  /\ LocalStorage.sessions (Gamification.updateStreak tz now ls)
     = LocalStorage.sessions ls
  /\ (0 <= ProgressData.streak p ->
      ProgressData.lastPracticeDate p <> Some (Gamification.isoDate now) ->
      1 <= ProgressData.streak after).
Proof.
  intros p after. subst after. unfold Gamification.updateStreak. fold p.
  destruct (Gamification.date_eqb (ProgressData.lastPracticeDate p)
              (Gamification.isoDate now)) eqn:D.
  - unfold Gamification.date_eqb in D.
    destruct (ProgressData.lastPracticeDate p) as [d|] eqn:L; [|discriminate].
    apply Z.eqb_eq in D. subst d. fold p. rewrite L.
    repeat split; try reflexivity. intros _ H. now elim H.
  - clearbody p.
    cbn [Gamification.getProgress Gamification.saveProgress
           LocalStorage.setProgress LocalStorage.progress LocalStorage.history
           LocalStorage.sessions ProgressData.lastPracticeDate
           ProgressData.points ProgressData.streak
           ProgressData.speakingSessions ProgressData.writingSessions].
    repeat split; try reflexivity. intros Hs _.
    destruct (Gamification.date_eqb (ProgressData.lastPracticeDate p)
                (Gamification.isoDate (Gamification.setDatePrevious tz now)));
      lia.
Qed.

Lemma updateStreak_frame_witness :
  1 <= ProgressData.streak
         (Gamification.getProgress
            (Gamification.updateStreak Samples.dhaka Samples.noon
               (Samples.practised (Some 19791)))).
Proof.
  apply (proj2 (proj2 (proj2 (proj2 (proj2 (proj2
           (updateStreak_frame Samples.dhaka Samples.noon
              (Samples.practised (Some 19791))))))))).
  - vm_compute. discriminate.
  - vm_compute. discriminate.
Defined.

(** X3.  A second call on the same UTC day leaves the store exactly as the
    first call left it, whatever the store was before the first call. *)
Theorem second_call_same_day_is_noop (tz : TimeZone.t) (now now' : Z) (ls : LocalStorage.t) :
  Gamification.isoDate now' = Gamification.isoDate now ->
  Gamification.updateStreak tz now' (Gamification.updateStreak tz now ls)
  = Gamification.updateStreak tz now ls.
Proof.
  intros E. pose proof (updateStreak_dated_today tz now ls) as D.
  set (ls1 := Gamification.updateStreak tz now ls) in *.
  unfold Gamification.updateStreak. now rewrite E, D.
Qed.

Lemma second_call_same_day_is_noop_witness :
  Gamification.updateStreak Samples.dhaka (Samples.noon + 3600000)
    (Gamification.updateStreak Samples.dhaka Samples.noon
       (Samples.practised (Some 19791)))
  = Gamification.updateStreak Samples.dhaka Samples.noon
      (Samples.practised (Some 19791)).
Proof.
  apply (second_call_same_day_is_noop Samples.dhaka Samples.noon
           (Samples.noon + 3600000) (Samples.practised (Some 19791))).
  reflexivity.
Defined.

Lemma updateStreak_next_day (tz : TimeZone.t) (t d : Z) (ls : LocalStorage.t) :
  Daily.sameOffsetDayBefore tz t ->
  ProgressData.lastPracticeDate (Gamification.getProgress ls) = Some d ->
  Gamification.isoDate t = d + 1 ->
  ProgressData.streak (Gamification.getProgress (Gamification.updateStreak tz t ls))
  = ProgressData.streak (Gamification.getProgress ls) + 1
  /\ ProgressData.lastPracticeDate
       (Gamification.getProgress (Gamification.updateStreak tz t ls))
     = Some (d + 1).
Proof.
  intros R Hl Ht. unfold Gamification.updateStreak.
  rewrite (isoDate_setDatePrevious tz t R), Hl, Ht. simpl.
  replace (d =? d + 1) with false by lia.
  replace (d =? d + 1 - 1) with true by lia.
  split; reflexivity.
Qed.

Lemma updateStreak_first (tz : TimeZone.t) (t : Z) (ls : LocalStorage.t) :
  ProgressData.lastPracticeDate (Gamification.getProgress ls) = None ->
  ProgressData.streak (Gamification.getProgress (Gamification.updateStreak tz t ls))
  = 1
  /\ ProgressData.lastPracticeDate
       (Gamification.getProgress (Gamification.updateStreak tz t ls))
     = Some (Gamification.isoDate t).
Proof.
  intros Hl. unfold Gamification.updateStreak. rewrite Hl. simpl.
  split; reflexivity.
Qed.

Lemma practiseAt_consecutive (tz : TimeZone.t) (ts : list Z) :
  Forall (Daily.sameOffsetDayBefore tz) ts ->
  forall d ls,
    Daily.consecutiveFrom d ts ->
    ProgressData.lastPracticeDate (Gamification.getProgress ls) = Some d ->
    ProgressData.streak (Gamification.getProgress (Daily.practiseAt tz ts ls))
    = ProgressData.streak (Gamification.getProgress ls) + Z.of_nat (List.length ts).
Proof.
  induction 1 as [|t rest R _ IH]; intros d ls Hc Hl; simpl.
  - lia.
  - destruct Hc as [Ht Hc].
    destruct (updateStreak_next_day tz t d ls R Hl Ht) as (Hs & Hd).
    unfold Daily.practiseAt in *. rewrite (IH (d + 1) _ Hc Hd), Hs. lia.
Qed.

(** X4.  Practising on consecutive UTC days counts them, as long as no
    change of the zone's offset lies within the local day before any of the
    calls: after one call on each of [n] days in a row, the first being the
    day after the recorded one, the streak has grown by [n]; and starting
    from a record that was never practised, one call at [t] and then one on
    each of the following days of [ts] leaves a streak of the number of
    calls. *)
Theorem streak_counts_consecutive_days (tz : TimeZone.t) (t : Z) (ts : list Z)
    (d : Z) (ls : LocalStorage.t) :
  Forall (Daily.sameOffsetDayBefore tz) ts ->
  (Daily.consecutiveFrom d ts ->
   ProgressData.lastPracticeDate (Gamification.getProgress ls) = Some d ->
   ProgressData.streak (Gamification.getProgress (Daily.practiseAt tz ts ls))
   = ProgressData.streak (Gamification.getProgress ls) + Z.of_nat (List.length ts))
  /\ (Daily.consecutiveFrom (Gamification.isoDate t) ts ->
      ProgressData.lastPracticeDate (Gamification.getProgress ls) = None ->
      ProgressData.streak
        (Gamification.getProgress (Daily.practiseAt tz (t :: ts) ls))
      = Z.of_nat (List.length (t :: ts))).
Proof.
  intros R. split; [now apply practiseAt_consecutive|].
  intros Hc Hn.
  destruct (updateStreak_first tz t ls Hn) as (Hs & Hd).
  change (Daily.practiseAt tz (t :: ts) ls)
    with (Daily.practiseAt tz ts (Gamification.updateStreak tz t ls)).
  rewrite (practiseAt_consecutive tz ts R (Gamification.isoDate t) _ Hc Hd), Hs.
  simpl List.length. lia.
Qed.

(** Three days in a row from a new store, in New York, the first of them the
    day the clocks went forward. *)
Lemma streak_counts_consecutive_days_witness :
  ProgressData.streak
    (Gamification.getProgress
       (Daily.practiseAt Samples.newYork
          [Samples.noon; Samples.noon + 86400000; Samples.noon + 172800000]
          Samples.emptyStorage)) = 3.
Proof.
  destruct (streak_counts_consecutive_days Samples.newYork Samples.noon
              [Samples.noon + 86400000; Samples.noon + 172800000] 0
              Samples.emptyStorage) as [_ H].
  - repeat constructor.
  - apply H; [repeat split|reflexivity].
Defined.

(** X5.  A progress slot that is absent or unreadable counts as the zero
    record, and the first operation repairs it: an award stores a record
    holding just the award, a streak update stores a streak of 1 dated
    today. *)
Theorem unreadable_progress_starts_from_zero (tz : TimeZone.t) (now amount : Z)
    (ls : LocalStorage.t) :
  LocalStorage.progress ls = Absent \/ LocalStorage.progress ls = Corrupt ->
  LocalStorage.progress (Gamification.addPoints amount ls)
  = Stored (ProgressData.mk amount 0 None 0 0)
  /\ LocalStorage.progress (Gamification.updateStreak tz now ls)
     = Stored (ProgressData.mk 0 1 (Some (Gamification.isoDate now)) 0 0).
Proof.
  unfold Gamification.addPoints, Gamification.updateStreak,
    Gamification.getProgress.
  intros [-> | ->]; simpl; split; reflexivity.
Qed.

Lemma unreadable_progress_starts_from_zero_witness :
  LocalStorage.progress
    (Gamification.addPoints 5 (LocalStorage.mk Corrupt Absent Absent))
  = Stored (ProgressData.mk 5 0 None 0 0).
Proof.
  apply (proj1 (unreadable_progress_starts_from_zero Samples.dhaka 0 5
                  (LocalStorage.mk Corrupt Absent Absent) (or_intror eq_refl))).
Defined.

(** ** The saved conversations of lib/history.ts *)

Section HistoryPlacement.

Let newerFirst (a b : SavedConversation.t) : Prop :=
  SavedConversation.date b <= SavedConversation.date a.

(** Sorting a list that is already newest-first changes nothing. *)
Lemma sortByDateDesc_sorted_id l :
  StronglySorted newerFirst l -> History.sortByDateDesc l = l.
Proof.
  induction 1 as [|y r Hs IH Hy]; simpl; [reflexivity|].
  rewrite IH. destruct r as [|z r']; simpl; [reflexivity|].
  inversion Hy as [|? ? Hz _]; subst. unfold newerFirst in Hz.
  apply Z.leb_le in Hz. now rewrite Hz.
Qed.

Lemma insertByDate_split x l :
  StronglySorted newerFirst l ->
  exists l1 l2,
    l = l1 ++ l2
    /\ History.insertByDate x l = l1 ++ x :: l2
    /\ Forall (fun y => SavedConversation.date x < SavedConversation.date y) l1
    /\ Forall (fun y => SavedConversation.date y <= SavedConversation.date x) l2.
Proof.
  induction 1 as [|y r Hs IH Hy]; simpl.
  - exists [], []. repeat split; constructor.
  - destruct (SavedConversation.date y <=? SavedConversation.date x) eqn:E.
    + apply Z.leb_le in E. exists [], (y :: r). repeat split; [constructor|].
      constructor; [exact E|].
      eapply Forall_impl; [|exact Hy]. unfold newerFirst. intros; lia.
    + apply Z.leb_gt in E. destruct IH as (l1 & l2 & -> & -> & H1 & H2).
      exists (y :: l1), l2. repeat split; [now constructor|exact H2].
Qed.

End HistoryPlacement.

(** X6.  Saving keeps the records that could be read before in their order
    and puts the new record behind exactly those with a strictly later date:
    the list read back is the old list with the new record inserted in
    front of the first record that is not newer than it. *)
Theorem save_inserts_by_date (now : Z) (conversation : History.Payload)
    (ls : LocalStorage.t) :
  exists newer older,
    History.getSavedConversations ls = newer ++ older
    /\ History.getSavedConversations (History.saveConversation now conversation ls)
       = newer ++
         SavedConversation.mk now (History.p_type conversation) now
           (History.p_transcript conversation) :: older
    /\ Forall (fun y => now < SavedConversation.date y) newer
    /\ Forall (fun y => SavedConversation.date y <= now) older.
Proof.
  set (saved := SavedConversation.mk now (History.p_type conversation) now
                  (History.p_transcript conversation)).
  pose proof (getSavedConversations_sorted ls) as Hs.
  destruct (insertByDate_split saved _ Hs) as (l1 & l2 & E & Ei & H1 & H2).
  exists l1, l2. split; [exact E|]. split; [|split; assumption].
  unfold History.saveConversation. fold saved.
  unfold History.getSavedConversations at 1. simpl.
  rewrite (sortByDateDesc_sorted_id _ Hs). exact Ei.
Qed.

(** X7.  When no stored record is dated after the moment of saving (the
    clock has not gone back), the record just saved is the first of the
    list read back, and the older records follow as they were. *)
Theorem saved_record_comes_first (now : Z) (conversation : History.Payload)
    (ls : LocalStorage.t) :
  Forall (fun y => SavedConversation.date y <= now)
    (History.getSavedConversations ls) ->
  History.getSavedConversations (History.saveConversation now conversation ls)
  = SavedConversation.mk now (History.p_type conversation) now
      (History.p_transcript conversation)
    :: History.getSavedConversations ls.
Proof.
  intros Hall.
  set (saved := SavedConversation.mk now (History.p_type conversation) now
                  (History.p_transcript conversation)).
  pose proof (getSavedConversations_sorted ls) as Hs.
  unfold History.saveConversation. fold saved.
  unfold History.getSavedConversations at 1. simpl.
  rewrite (sortByDateDesc_sorted_id _ Hs).
  destruct (History.getSavedConversations ls) as [|y r]; [reflexivity|].
  simpl. inversion Hall as [|? ? Hy _]; subst.
  apply Z.leb_le in Hy. now rewrite Hy.
Qed.

Lemma saved_record_comes_first_witness :
  History.getSavedConversations
    (History.saveConversation (Samples.noon + 10) (History.mkPayload write [])
       (History.saveConversation Samples.noon (History.mkPayload speak [])
          Samples.emptyStorage))
  = [SavedConversation.mk (Samples.noon + 10) write (Samples.noon + 10) [];
     SavedConversation.mk Samples.noon speak Samples.noon []].
Proof.
  apply (saved_record_comes_first (Samples.noon + 10) (History.mkPayload write [])
           (History.saveConversation Samples.noon (History.mkPayload speak [])
              Samples.emptyStorage)).
  repeat constructor. vm_compute. discriminate.
Defined.

(** X8.  Clearing the history empties the collection whatever the slot
    held, unreadable text included, and touches neither the progress nor the
    resumable sessions; the first save after it gives a collection of exactly
    that one record. *)
Theorem clearHistory_empties (now : Z) (conversation : History.Payload)
    (ls : LocalStorage.t) :
  History.getSavedConversations (History.clearHistory ls) = []
  /\ LocalStorage.progress (History.clearHistory ls) = LocalStorage.progress ls
  /\ LocalStorage.sessions (History.clearHistory ls) = LocalStorage.sessions ls
  /\ History.getSavedConversations
       (History.saveConversation now conversation (History.clearHistory ls))
     = [SavedConversation.mk now (History.p_type conversation) now
          (History.p_transcript conversation)].
Proof. repeat split. Qed.

(** ** The PCM conversions *)

(** X9.  Whatever number a sample is, what [createBlob] stores for it is a
    16-bit signed integer. *)
Theorem createBlob_in_int16_range (data : list Q) :
  Forall (fun z => -32768 <= z <= 32767) (Pcm.createBlob data).
Proof.
  unfold Pcm.createBlob. apply Forall_forall. intros z Hz.
  apply in_map_iff in Hz as (x & <- & _).
  unfold Pcm.encodeSample, Pcm.toInt16.
  pose proof (Z.mod_pos_bound (Pcm.truncate (x * 32768)) 65536 eq_refl) as B.
  destruct (32768 <=? Pcm.truncate (x * 32768) mod 65536) eqn:E;
    [apply Z.leb_le in E|apply Z.leb_gt in E]; lia.
Qed.

(** X10.  Below full scale the two conversions are inverse up to one
    quantisation step: for a sample in [-1, 1), decoding what was encoded
    differs from the sample by less than 1/32768. *)
Theorem decode_after_encode (x : Q) :
  (-1 <= x)%Q -> (x < 1)%Q ->
  (Qabs (Pcm.decodeSample (Pcm.encodeSample x) - x) < 1 / 32768)%Q.
Proof.
  intros Hlo Hhi. now apply decode_encode_below_full_scale.
Qed.

Lemma decode_after_encode_witness :
  (Qabs (Pcm.decodeSample (Pcm.encodeSample (-1 # 3)) - (-1 # 3)) < 1 / 32768)%Q.
Proof.
  apply (decode_after_encode (-1 # 3)); [unfold Qle; simpl; lia|reflexivity].
Defined.

Lemma truncate_decodeSample (z : Z) :
  Pcm.truncate (Pcm.decodeSample z * 32768) = z.
Proof.
  unfold Pcm.truncate, Pcm.decodeSample, Qdiv, Qmult, Qinv, inject_Z.
  cbn [Qnum Qden]. 
  replace (z * 1 * 32768) with (z * 32768) by lia.
  change (Z.pos (1 * 32768 * 1)) with 32768.
  apply Z.quot_mul. discriminate.
Qed.

(** X11.  In the other direction nothing is lost: encoding the decoded value
    of a 16-bit sample gives the sample back. *)
Theorem encode_after_decode (z : Z) :
  -32768 <= z <= 32767 ->
  Pcm.encodeSample (Pcm.decodeSample z) = z.
Proof.
  intros R. unfold Pcm.encodeSample.
  rewrite toInt16_in_range; rewrite truncate_decodeSample; [reflexivity|exact R].
Qed.

Lemma encode_after_decode_witness :
  Pcm.encodeSample (Pcm.decodeSample (-32768)) = -32768.
Proof. apply (encode_after_decode (-32768)). lia. Defined.

Lemma map_nth_seq {A B : Type} (f : A -> B) (d : A) (l : list A) :
  List.map (fun i => f (nth i l d)) (seq 0 (List.length l)) = List.map f l.
Proof.
  induction l as [|a l IH]; [reflexivity|].
  cbn [List.length]. rewrite <- cons_seq, <- seq_shift. cbn [List.map nth].
  rewrite List.map_map. cbn [nth]. now rewrite IH.
Qed.

Lemma decodeSample_range (z : Z) :
  -32768 <= z <= 32767 ->
  (-1 <= Pcm.decodeSample z)%Q /\ (Pcm.decodeSample z < 1)%Q.
Proof.
  intros R. unfold Pcm.decodeSample, Qdiv, Qmult, Qinv, inject_Z, Qle, Qlt.
  cbn [Qnum Qden]. change (Z.pos (1 * 32768)) with 32768. lia.
Qed.

(** X12.  [decodeAudioData] on a one-channel payload gives a buffer with as
    many frames as the payload has samples and a single channel that holds
    the payload sample by sample, each divided by 32768; for 16-bit samples
    every value of the channel lies in [-1, 1). *)
Theorem decodeAudioData_mono (data : list Z) (rate : Z) :
  Forall (fun z => -32768 <= z <= 32767) data ->
  Pcm.frameCount (Pcm.decodeAudioData data rate 1) = List.length data
  /\ Pcm.channelData (Pcm.decodeAudioData data rate 1)
     = [List.map Pcm.decodeSample data]
  /\ Forall (Forall (fun x => (-1 <= x)%Q /\ (x < 1)%Q))
       (Pcm.channelData (Pcm.decodeAudioData data rate 1)).
Proof.
  intros Hr.
  assert (E : Pcm.channelData (Pcm.decodeAudioData data rate 1)
              = [List.map Pcm.decodeSample data]).
  { unfold Pcm.decodeAudioData. cbn [Pcm.channelData seq List.map].
    rewrite Nat.div_1_r. f_equal.
    rewrite <- (map_nth_seq Pcm.decodeSample 0 data).
    apply List.map_ext. intros i. now rewrite Nat.mul_1_r, Nat.add_0_r. }
  split; [|split].
  - unfold Pcm.decodeAudioData. cbn [Pcm.frameCount]. apply Nat.div_1_r.
  - exact E.
  - rewrite E. constructor; [|constructor].
    apply Forall_forall. intros x Hx.
    apply in_map_iff in Hx as (z & <- & Hz).
    apply decodeSample_range. rewrite Forall_forall in Hr. now apply Hr.
Qed.

Lemma decodeAudioData_mono_witness :
  Pcm.channelData (Pcm.decodeAudioData [16384; -32768; 0] 24000 1)
  = [List.map Pcm.decodeSample [16384; -32768; 0]].
Proof.
  destruct (decodeAudioData_mono [16384; -32768; 0] 24000) as (_ & H & _);
    [repeat constructor; lia|exact H].
Defined.

(** ** Invariants of the live message handler *)

Section LiveInvariants.

Import LivePractice.

Lemma addTranscription_appends env sender text st :
  sender <> status ->
  exists added,
    transcriptionHistory (addTranscription env sender text st)
    = transcriptionHistory st ++ added
    /\ Forall Messages.wellFormedEntry added.
Proof.
  intros Hs. unfold addTranscription.
  destruct (JS.truthy (JS.trim text)) eqn:E; simpl.
  - eexists. split; [reflexivity|]. repeat constructor; assumption.
  - exists []. split; [now rewrite app_nil_r|constructor].
Qed.

Lemma reconcile_appends env m st :
  exists added,
    transcriptionHistory (reconcile env m st) = transcriptionHistory st ++ added
    /\ Forall Messages.wellFormedEntry added.
Proof.
  assert (Hu : user <> status) by discriminate.
  assert (Ha : ai <> status) by discriminate.
  assert (Hnil : exists added,
             transcriptionHistory st = transcriptionHistory st ++ added
             /\ Forall Messages.wellFormedEntry added).
  { exists []. split; [now rewrite app_nil_r|constructor]. }
  unfold reconcile, transcriptionBlock, turnCompleteBlock, addPoints.
  destruct (outputTranscription m), (inputTranscription m),
    (liveTranscript st) as [[[|] t]|], (turnComplete m); simpl;
    rewrite ?andb_false_r, ?andb_true_r; simpl;
    repeat match goal with
      | |- context [if JS.truthy ?x then _ else _] =>
          destruct (JS.truthy x); simpl
      end;
    try exact Hnil;
    first [ apply (addTranscription_appends env user _ st Hu)
          | apply (addTranscription_appends env ai _ st Ha)
          | match goal with
            | |- context [addTranscription env ?s ?x ?st'] =>
                apply (addTranscription_appends env s x st'); discriminate
            end ].
Qed.

Lemma handle_appends ev st :
  exists added,
    transcriptionHistory (handle ev st) = transcriptionHistory st ++ added
    /\ Forall Messages.wellFormedEntry added.
Proof.
  destruct ev as [env m|i]; simpl.
  - destruct (onmessage_transcript env m st) as (-> & _ & _).
    apply reconcile_appends.
  - exists []. split; [now rewrite app_nil_r|constructor].
Qed.

End LiveInvariants.

(** X13.  The transcript only grows: whatever events arrive, the entries
    that were there stay where they were, unchanged, and every entry added
    behind them is the user's or the assistant's and has text that is not
    blank. *)
Theorem transcript_is_append_only (evs : list LivePractice.Event)
    (st : LivePractice.State) :
  exists added,
    LivePractice.transcriptionHistory (LivePractice.run evs st)
    = LivePractice.transcriptionHistory st ++ added
    /\ Forall Messages.wellFormedEntry added.
Proof.
  revert st. induction evs as [|ev evs IH]; intros st.
  - exists []. split; [now rewrite app_nil_r|constructor].
  - rewrite run_cons.
    destruct (IH (LivePractice.handle ev st)) as (a2 & E2 & F2).
    destruct (handle_appends ev st) as (a1 & E1 & F1).
    exists (a1 ++ a2). rewrite E2, E1, app_assoc. split; [reflexivity|].
    apply Forall_app. now split.
Qed.

Section PendingEntry.

Import LivePractice.

Lemma reconcile_pending env m st :
  (turnComplete m = true -> liveTranscript (reconcile env m st) = None)
  /\ (turnComplete m = false ->
      match fragmentOf m with
      | Some (s, c) =>
          exists t, liveTranscript (reconcile env m st)
                    = Some (LiveTranscript.mk s (t ++ c))
      | None => liveTranscript (reconcile env m st) = liveTranscript st
      end).
Proof.
  unfold reconcile, transcriptionBlock, turnCompleteBlock, fragmentOf, addPoints.
  destruct (outputTranscription m) as [co|], (inputTranscription m) as [ci|],
    (liveTranscript st) as [[[|] t]|] eqn:El, (turnComplete m); simpl;
    rewrite ?andb_false_r, ?andb_true_r; simpl;
    repeat match goal with
      | |- context [if JS.truthy ?x then _ else _] =>
          destruct (JS.truthy x); simpl
      end;
    (split; intros H; try discriminate H; try reflexivity; try exact El);
    first [ now exists t | now exists [] ].
Qed.

End PendingEntry.

(** X14.  After a message with the turn boundary nothing is pending,
    whatever else the message carries.  After a message without it, a
    fragment in the message makes its speaker the pending one, with a
    pending text that ends with the fragment, and a message with no fragment
    leaves the pending entry as it was. *)
Theorem pending_after_message (env : LivePractice.Env)
    (m : LivePractice.LiveServerMessage) (st : LivePractice.State) :
  (LivePractice.turnComplete m = true ->
   LivePractice.liveTranscript (LivePractice.onmessage env m st) = None)
  /\ (LivePractice.turnComplete m = false ->
      match LivePractice.fragmentOf m with
      | Some (s, c) =>
          exists t,
            LivePractice.liveTranscript (LivePractice.onmessage env m st)
            = Some (LivePractice.LiveTranscript.mk s (t ++ c))
      | None =>
          LivePractice.liveTranscript (LivePractice.onmessage env m st)
          = LivePractice.liveTranscript st
      end).
Proof.
  destruct (onmessage_transcript env m st) as (_ & -> & _).
  apply reconcile_pending.
Qed.

Lemma pending_after_message_witness :
  LivePractice.liveTranscript
    (LivePractice.onmessage Samples.env2 (Samples.saysAndEnds User "bye")
       Samples.pendingSpace) = None.
Proof.
  apply (proj1 (pending_after_message Samples.env2 (Samples.saysAndEnds User "bye")
                  Samples.pendingSpace)).
  reflexivity.
Defined.

(** X15.  A message that carries both transcriptions is handled as if the
    input transcription were not there: the user's fragment in it is
    ignored altogether. *)
Theorem output_transcription_wins (env : LivePractice.Env)
    (m : LivePractice.LiveServerMessage) (st : LivePractice.State)
    (c : JS.JSString) :
  LivePractice.outputTranscription m = Some c ->
  LivePractice.onmessage env m st
  = LivePractice.onmessage env (Messages.withoutInput m) st.
Proof.
  intros H. destruct m as [o i tc a intr]. simpl in H. subst o.
  reflexivity.
Qed.

Lemma output_transcription_wins_witness :
  LivePractice.onmessage Samples.env1
    (LivePractice.mkMessage (Some (JS.lit "Hi")) (Some (JS.lit "I go")) false
       LivePractice.NoData false) Samples.started
  = LivePractice.onmessage Samples.env1 (Samples.says Ai "Hi") Samples.started.
Proof.
  apply (output_transcription_wins Samples.env1
           (LivePractice.mkMessage (Some (JS.lit "Hi")) (Some (JS.lit "I go"))
              false LivePractice.NoData false) Samples.started (JS.lit "Hi")).
  reflexivity.
Defined.

Lemma handle_points ev st :
  LivePractice.points st <= LivePractice.points (LivePractice.handle ev st)
  <= LivePractice.points st + (if Messages.isMessage ev then 5 else 0).
Proof.
  destruct ev as [env m|i]; simpl.
  - destruct (onmessage_award env m st) as (_ & [-> | ->]); lia.
  - unfold LivePractice.points, LivePractice.onended. simpl. lia.
Qed.

(** X16.  Handling events never takes points away, and awards at most 5
    points for each message handled. *)
Theorem points_only_grow (evs : list LivePractice.Event)
    (st : LivePractice.State) :
  LivePractice.points st <= LivePractice.points (LivePractice.run evs st)
  <= LivePractice.points st
     + 5 * Z.of_nat (List.length (List.filter Messages.isMessage evs)).
Proof.
  revert st. induction evs as [|ev evs IH]; intros st.
  - simpl. lia.
  - rewrite run_cons. specialize (IH (LivePractice.handle ev st)).
    pose proof (handle_points ev st) as H.
    cbn [List.filter]. destruct (Messages.isMessage ev); cbn [List.length]; lia.
Qed.

Section PlaybackControl.

Import LivePractice.

Lemma onmessage_outputReady env m st :
  outputReady (onmessage env m st) = outputReady st.
Proof.
  destruct (reconcile_audio env m st) as (Er & _).
  unfold onmessage, onmessageOutcome, audioBlock, interruptedBlock.
  destruct (modelTurn m) as [| |[|[|d ds] [|]]];
    destruct (outputReady (reconcile env m st)) eqn:E;
    destruct (interrupted m); simpl; congruence.
Qed.





Lemma handle_silent ev st :
  outputReady st = false ->
  outputReady (handle ev st) = false
  /\ (scheduled (handle ev st) = scheduled st \/ scheduled (handle ev st) = []).
Proof.
  intros Hr. destruct ev as [env m|i]; simpl; [|auto].
  split; [now rewrite onmessage_outputReady|].
  destruct (reconcile_audio env m st) as (Er & _ & _ & Ec).
  unfold onmessage, onmessageOutcome, audioBlock, interruptedBlock.
  rewrite Er, Hr.
  destruct (modelTurn m) as [| |[|[|d ds] [|]]]; destruct (interrupted m);
    simpl; auto.
Qed.

Lemma run_silent evs :
  forall st,
    outputReady st = false ->
    scheduled (run evs st) = scheduled st \/ scheduled (run evs st) = [].
Proof.
  induction evs as [|ev evs IH]; intros st Hr; [now left|].
  rewrite run_cons.
  destruct (handle_silent ev st Hr) as (Hr' & Hs).
  destruct (IH _ Hr') as [E | E]; [|now right].
  rewrite E. exact Hs.
Qed.

Lemma endSession_audio isUnmounting skipSave env st :
  outputReady (endSession isUnmounting skipSave env st) = false
  /\ scheduled (endSession isUnmounting skipSave env st) = scheduled st.
Proof.
  unfold endSession.
  destruct (isUnmounting && _ && negb skipSave); [|now split].
  destruct (0 <? _)%nat; [|now split].
  destruct (LocalStorage.sessions (storage st)); now split.
Qed.

End PlaybackControl.



(** X18.  Once [endSession] has run, whatever its options, no message makes
    the component start a node again: through any later events the schedule
    stays what it was or is emptied by an interruption. *)
Theorem no_playback_after_endSession (isUnmounting skipSave : bool)
    (env : LivePractice.Env) (st : LivePractice.State)
    (evs : list LivePractice.Event) :
  LivePractice.scheduled
    (LivePractice.run evs (LivePractice.endSession isUnmounting skipSave env st))
  = LivePractice.scheduled st
  \/ LivePractice.scheduled
       (LivePractice.run evs (LivePractice.endSession isUnmounting skipSave env st))
     = [].
Proof.
  destruct (endSession_audio isUnmounting skipSave env st) as (Hr & Hs).
  rewrite <- Hs. now apply run_silent.
Qed.

(** ** Saving and ending a live session, continued *)

Section SaveEffects.

Import LivePractice.

Lemma updateStreak_counters (tz : TimeZone.t) (now : Z) (ls : LocalStorage.t) :
  ProgressData.speakingSessions
    (Gamification.getProgress (Gamification.updateStreak tz now ls))
  = ProgressData.speakingSessions (Gamification.getProgress ls)
  /\ ProgressData.writingSessions
       (Gamification.getProgress (Gamification.updateStreak tz now ls))
     = ProgressData.writingSessions (Gamification.getProgress ls).
Proof.
  unfold Gamification.updateStreak.
  destruct (Gamification.date_eqb _ _); split; reflexivity.
Qed.

Lemma updateStreak_date (tz : TimeZone.t) (now : Z) (ls : LocalStorage.t) :
  ProgressData.lastPracticeDate
    (Gamification.getProgress (Gamification.updateStreak tz now ls))
  = Some (Gamification.isoDate now).
Proof.
  pose proof (updateStreak_dated_today tz now ls) as D.
  unfold Gamification.date_eqb in D.
  destruct (ProgressData.lastPracticeDate _) as [d|]; [|discriminate].
  apply Z.eqb_eq in D. now subst d.
Qed.

Lemma handleSave_store env st :
  LocalStorage.progress (storage (Messages.stateOf (handleSave env st)))
    = LocalStorage.progress (Messages.savedStore env st)
  /\ LocalStorage.history (storage (Messages.stateOf (handleSave env st)))
     = LocalStorage.history (Messages.savedStore env st)
  /\ isSaving (Messages.stateOf (handleSave env st)) = true.
Proof.
  unfold handleSave, Messages.savedStore. cbn [storage withStorage].
  destruct (LocalStorage.sessions _); simpl; auto.
Qed.

Lemma savedStore_history env st :
  LocalStorage.history (Messages.savedStore env st)
  = Stored (SavedConversation.mk (dateNow env) speak (dateNow env)
              (finalTranscript env st)
            :: History.getSavedConversations (storage st)).
Proof.
  unfold Messages.savedStore.
  destruct (updateStreak_slots (timeZone env) (dateNow env)
              (Gamification.incrementSpeakingSessions
                 (History.saveConversation (dateNow env)
                    (History.mkPayload speak (finalTranscript env st))
                    (storage st)))) as (-> & _).
  reflexivity.
Qed.

Lemma savedStore_sessions env st :
  LocalStorage.sessions (Messages.savedStore env st) = LocalStorage.sessions (storage st).
Proof.
  unfold Messages.savedStore.
  destruct (updateStreak_slots (timeZone env) (dateNow env)
              (Gamification.incrementSpeakingSessions
                 (History.saveConversation (dateNow env)
                    (History.mkPayload speak (finalTranscript env st))
                    (storage st)))) as (_ & ->).
  reflexivity.
Qed.

Lemma getProgress_progress ls ls' :
  LocalStorage.progress ls = LocalStorage.progress ls' ->
  Gamification.getProgress ls = Gamification.getProgress ls'.
Proof. unfold Gamification.getProgress. now intros ->. Qed.

End SaveEffects.

(** X19.  Whether or not [handleSave] gets through, by the time it reads the
    session list it has recorded the conversation as the first entry of the
    history slot, counted one more speaking session, dated the progress
    record today and left the points and the writing sessions alone. *)
Theorem handleSave_records_and_counts (env : LivePractice.Env)
    (st : LivePractice.State) :
  let before := Gamification.getProgress (LivePractice.storage st) in
  let st' := Messages.stateOf (LivePractice.handleSave env st) in
  let after := Gamification.getProgress (LivePractice.storage st') in
  LocalStorage.history (LivePractice.storage st')
  = Stored (SavedConversation.mk (LivePractice.dateNow env) speak
              (LivePractice.dateNow env) (LivePractice.finalTranscript env st)
            :: History.getSavedConversations (LivePractice.storage st))
  /\ ProgressData.speakingSessions after = ProgressData.speakingSessions before + 1
  /\ ProgressData.writingSessions after = ProgressData.writingSessions before
  /\ ProgressData.points after = ProgressData.points before
  /\ ProgressData.lastPracticeDate after
     = Some (Gamification.isoDate (LivePractice.dateNow env)).
Proof.
  intros before st' after. subst before st' after.
  destruct (handleSave_store env st) as (Hp & Hh & _).
  rewrite Hh, (getProgress_progress _ _ Hp), savedStore_history.
  split; [reflexivity|]. unfold Messages.savedStore.
  destruct (updateStreak_counters (LivePractice.timeZone env)
              (LivePractice.dateNow env)
              (Gamification.incrementSpeakingSessions
                 (History.saveConversation (LivePractice.dateNow env)
                    (History.mkPayload speak (LivePractice.finalTranscript env st))
                    (LivePractice.storage st)))) as (-> & ->).
  rewrite updateStreak_points, updateStreak_date.
  repeat split; reflexivity.
Qed.

(** X20.  When the stored session list is unreadable, [handleSave] throws at
    that point: the conversation is already in the history, the session list
    is left unreadable, and the saving flag stays on, the timer that would
    end the session never being set. *)
Theorem handleSave_unreadable_sessions (env : LivePractice.Env)
    (st : LivePractice.State) :
  LocalStorage.sessions (LivePractice.storage st) = Corrupt ->
  exists st',
    LivePractice.handleSave env st = LivePractice.Threw st'
    /\ LivePractice.isSaving st' = true
    /\ LocalStorage.sessions (LivePractice.storage st') = Corrupt
    /\ LocalStorage.history (LivePractice.storage st')
       = Stored (SavedConversation.mk (LivePractice.dateNow env) speak
                   (LivePractice.dateNow env) (LivePractice.finalTranscript env st)
                 :: History.getSavedConversations (LivePractice.storage st))
    /\ LivePractice.activeSession st' = LivePractice.activeSession st
    /\ LivePractice.view st' = LivePractice.view st.
Proof.
  intros Hc.
  pose proof (savedStore_sessions env st) as Hs.
  pose proof (savedStore_history env st) as Hh.
  unfold Messages.savedStore in Hs, Hh.
  unfold LivePractice.handleSave.
  cbn [LivePractice.storage LivePractice.withStorage].
  rewrite Hs, Hc.
  eexists. split; [reflexivity|].
  unfold LivePractice.withStorage.
  cbn [LivePractice.isSaving LivePractice.storage LivePractice.activeSession
         LivePractice.view].
  rewrite Hs, Hh, Hc. auto.
Qed.

Lemma handleSave_unreadable_sessions_witness :
  exists st',
    LivePractice.handleSave Samples.env2
      (LivePractice.withStorage (LocalStorage.setSessions Corrupt)
         Samples.pendingSpace)
    = LivePractice.Threw st'
    /\ LivePractice.isSaving st' = true.
Proof.
  destruct (handleSave_unreadable_sessions Samples.env2
              (LivePractice.withStorage (LocalStorage.setSessions Corrupt)
                 Samples.pendingSpace) eq_refl) as (st' & H1 & H2 & _).
  exists st'. split; assumption.
Defined.

(** X21.  [handleSave] writes the active session into the stored list
    without disturbing the others.  When no stored session has its id, the
    record is added at the end.  When one has, the list keeps its length, the
    record is in it, and every session with another id stays at its place. *)
Theorem handleSave_upserts_session (env : LivePractice.Env)
    (st : LivePractice.State) (cur : ContinuableSession.t)
    (l : list ContinuableSession.t) :
  LivePractice.activeSession st = Some cur ->
  LocalStorage.sessions (LivePractice.storage st) = Stored l ->
  let record :=
    ContinuableSession.mk (ContinuableSession.id cur) (ContinuableSession.name cur)
      (LivePractice.dateNow env) (LivePractice.finalTranscript env st) in
  let after :=
    LocalStorage.sessions
      (LivePractice.storage (Messages.stateOf (LivePractice.handleSave env st))) in
  (Forall (fun s => ContinuableSession.id s <> ContinuableSession.id cur) l ->
   after = Stored (l ++ [record]))
  /\ (Exists (fun s => ContinuableSession.id s = ContinuableSession.id cur) l ->
      exists l',
        after = Stored l'
        /\ List.length l' = List.length l
        /\ In record l'
        /\ forall j s,
             l !! j = Some s ->
             ContinuableSession.id s <> ContinuableSession.id cur ->
             l' !! j = Some s).
Proof.
  intros Ha Hl record after. subst after.
  pose proof (savedStore_sessions env st) as Hs.
  unfold Messages.savedStore in Hs.
  unfold LivePractice.handleSave.
  cbn [LivePractice.storage LivePractice.withStorage].
  rewrite Hs, Hl, Ha. fold record.
  cbn [Messages.stateOf LivePractice.storage LivePractice.withStorage
         LocalStorage.setSessions LocalStorage.sessions].
  split.
  - intros Hall. now rewrite (findSessionIndex_None cur l Hall).
  - intros Hex.
    destruct (findSessionIndex_Some cur l Hex) as (i & s & -> & Hi & Hid).
    eexists. split; [reflexivity|]. split; [apply length_insert|]. split.
    + apply list_elem_of_In. eapply list_elem_of_lookup_2.
      apply list_lookup_insert_eq. now apply lookup_lt_Some in Hi.
    + intros j s' Hj Hne. rewrite list_lookup_insert_ne; [exact Hj|].
      intros ->. rewrite Hi in Hj. inversion Hj; subst. now elim Hne.
Qed.

Lemma handleSave_upserts_session_witness :
  LocalStorage.sessions
    (LivePractice.storage
       (Messages.stateOf
          (LivePractice.handleSave Samples.env2
             (LivePractice.withStorage (LocalStorage.setSessions (Stored []))
                Samples.pendingSpace))))
  = Stored
      ([] ++
       [ContinuableSession.mk (Some Samples.noon) (Some LivePractice.newSessionName)
          (Samples.noon + 700)
          (LivePractice.finalTranscript Samples.env2
             (LivePractice.withStorage (LocalStorage.setSessions (Stored []))
                Samples.pendingSpace))]).
Proof.
  apply (proj1 (handleSave_upserts_session Samples.env2
                  (LivePractice.withStorage (LocalStorage.setSessions (Stored []))
                     Samples.pendingSpace)
                  (ContinuableSession.mk (Some Samples.noon)
                     (Some LivePractice.newSessionName) Samples.noon [])
                  [] eq_refl eq_refl)).
  constructor.
Defined.

(** ** Ending a live session *)

Section EndSession.

Import LivePractice.

Lemma statusOnly_filter (l : list Transcription.t) :
  Forall (fun t => Transcription.sender t = status) l ->
  List.filter (fun t => negb (isStatus t)) l = [].
Proof.
  induction 1 as [|t r Ht _ IH]; [reflexivity|].
  simpl. unfold isStatus at 1. rewrite Ht. exact IH.
Qed.

Lemma spoken_filter (l : list Transcription.t) :
  Exists (fun t => Transcription.sender t <> status) l ->
  (0 <? List.length (List.filter (fun t => negb (isStatus t)) l))%nat = true.
Proof.
  induction 1 as [t r Ht|t r _ IH]; simpl.
  - unfold isStatus at 1.
    destruct (Transcription.sender t); [reflexivity|reflexivity|now elim Ht].
  - destruct (negb (isStatus t)); [reflexivity|exact IH].
Qed.

Lemma endSession_lobby u k env st :
  u && bool_decide (is_Some (activeSession st)) && negb k = false ->
  endSession u k env st
  = mkState lobby false (isSaving st) (transcriptionHistory st) None None false
      (nextStartTime st) (sources st) (scheduled st) (storage st).
Proof. unfold endSession. now intros ->. Qed.

Lemma endSession_unmount (st : State) cur :
  activeSession st = Some cur ->
  true && bool_decide (is_Some (activeSession st)) && negb false = true.
Proof. intros ->. reflexivity. Qed.

End EndSession.

(** X22.  Unless it runs on unmount for an active session without
    [skipSave], [endSession] takes the component back to the lobby with no
    session active and nothing pending or paused; the pending fragment is
    dropped rather than added to the transcript, and nothing is written to
    the store. *)
Theorem endSession_returns_to_lobby (isUnmounting skipSave : bool)
    (env : LivePractice.Env) (st : LivePractice.State) :
  isUnmounting = false \/ skipSave = true \/ LivePractice.activeSession st = None ->
  let st' := LivePractice.endSession isUnmounting skipSave env st in
  LivePractice.view st' = LivePractice.lobby
  /\ LivePractice.activeSession st' = None
  /\ LivePractice.liveTranscript st' = None
  /\ LivePractice.isPaused st' = false
  /\ LivePractice.transcriptionHistory st' = LivePractice.transcriptionHistory st
  /\ LivePractice.storage st' = LivePractice.storage st.
Proof.
  intros H st'. subst st'. rewrite endSession_lobby; [repeat split|].
  destruct H as [-> | [-> | ->]]; [reflexivity| |].
  - now rewrite andb_false_r.
  - now rewrite andb_false_r.
Qed.

Lemma endSession_returns_to_lobby_witness :
  LivePractice.view (LivePractice.endSession false true Samples.env2 LobbySamples.spoke)
  = LivePractice.lobby
  /\ LivePractice.storage
       (LivePractice.endSession false true Samples.env2 LobbySamples.spoke)
     = LivePractice.storage LobbySamples.spoke.
Proof.
  destruct (endSession_returns_to_lobby false true Samples.env2 LobbySamples.spoke)
    as (H1 & _ & _ & _ & _ & H2); [left; reflexivity|].
  split; assumption.
Defined.

(** X23.  Whatever its options, [endSession] writes nothing when the
    transcript, the trimmed pending fragment included, holds status entries
    only, or when the stored session list is unreadable. *)
Theorem endSession_writes_nothing (isUnmounting skipSave : bool)
    (env : LivePractice.Env) (st : LivePractice.State) :
  Forall (fun t => Transcription.sender t = status)
    (LivePractice.finalHistory env st)
  \/ LocalStorage.sessions (LivePractice.storage st) = Corrupt ->
  LivePractice.storage (LivePractice.endSession isUnmounting skipSave env st)
  = LivePractice.storage st.
Proof.
  intros H. unfold LivePractice.endSession.
  destruct (isUnmounting && _ && negb skipSave); [|reflexivity].
  destruct H as [H|H].
  - rewrite (statusOnly_filter _ H). reflexivity.
  - rewrite H. now destruct (0 <? _)%nat.
Qed.

Lemma endSession_writes_nothing_witness :
  LivePractice.storage
    (LivePractice.endSession true false Samples.env2 Samples.pendingSpace)
  = LivePractice.storage Samples.pendingSpace.
Proof.
  apply (endSession_writes_nothing true false Samples.env2 Samples.pendingSpace).
  left. constructor.
Defined.

(** X24.  On unmount, an active session in which something was said is
    written into the stored list.  When a stored session has its id, that
    record keeps its id and its name and gets the transcript and the date,
    the list keeps its length, and the sessions with another id stay at
    their places.  When none has, a record is added at the end under a new
    id, the clock's reading, and the default name, not under the id and the
    name of the active session. *)
Theorem unmount_autosaves_session (env : LivePractice.Env)
    (st : LivePractice.State) (cur : ContinuableSession.t)
    (l : list ContinuableSession.t) :
  LivePractice.activeSession st = Some cur ->
  LocalStorage.sessions (LivePractice.storage st) = Stored l ->
  Exists (fun t => Transcription.sender t <> status)
    (LivePractice.finalHistory env st) ->
  let final := LivePractice.finalHistory env st in
  let after :=
    LocalStorage.sessions
      (LivePractice.storage (LivePractice.endSession true false env st)) in
  (Forall (fun s => ContinuableSession.id s <> ContinuableSession.id cur) l ->
   after
   = Stored (l ++ [ContinuableSession.mk (Some (LivePractice.dateNow env))
                     (Some LivePractice.defaultSessionName)
                     (LivePractice.dateNow env) final]))
  /\ (Exists (fun s => ContinuableSession.id s = ContinuableSession.id cur) l ->
      exists l' i old,
        after = Stored l'
        /\ List.length l' = List.length l
        /\ l !! i = Some old
        /\ ContinuableSession.id old = ContinuableSession.id cur
        /\ l' !! i
           = Some (ContinuableSession.mk (ContinuableSession.id old)
                     (ContinuableSession.name old) (LivePractice.dateNow env) final)
        /\ forall j s,
             l !! j = Some s ->
             ContinuableSession.id s <> ContinuableSession.id cur ->
             l' !! j = Some s).
Proof.
  intros Ha Hl Hx final after. subst after.
  unfold LivePractice.endSession.
  rewrite (endSession_unmount st cur Ha), (spoken_filter _ Hx), Hl, Ha.
  fold final.
  split.
  - intros Hall. now rewrite (findSessionIndex_None cur l Hall).
  - intros Hex.
    destruct (findSessionIndex_Some cur l Hex) as (i & old & -> & Hi & Hid).
    rewrite Hi. eexists _, i, old.
    split; [reflexivity|]. split; [apply length_insert|].
    split; [exact Hi|]. split; [exact Hid|]. split.
    + apply list_lookup_insert_eq. now apply lookup_lt_Some in Hi.
    + intros j s' Hj Hne. rewrite list_lookup_insert_ne; [exact Hj|].
      intros ->. rewrite Hi in Hj. inversion Hj; subst. now elim Hne.
Qed.

Lemma unmount_autosaves_session_witness :
  exists l',
    LocalStorage.sessions
      (LivePractice.storage
         (LivePractice.endSession true false Samples.env3 LobbySamples.resumed))
    = Stored l'
    /\ l' !! 0%nat = Some LobbySamples.older.
Proof.
  destruct (unmount_autosaves_session Samples.env3 LobbySamples.resumed
              LobbySamples.newer [LobbySamples.older; LobbySamples.newer])
    as (_ & H).
  - reflexivity.
  - reflexivity.
  - apply Exists_cons_hd. discriminate.
  - destruct H as (l' & i & old & H1 & _ & _ & _ & _ & H2).
    + apply Exists_cons_tl, Exists_cons_hd. reflexivity.
    + exists l'. split; [exact H1|]. apply H2; [reflexivity|discriminate].
Defined.

(** ** The system instruction of a resumed session *)

Section Instruction.

Import SystemInstruction.

Let lineOf (p : Sender * JS.JSString) : JS.JSString :=
  (if Sender_eqb (fst p) ai then JS.lit "Alex" else JS.lit "Student")
  ++ JS.lit ": " ++ snd p.

Lemma historyPreamble_spoken history :
  historyPreamble history = join newline (List.map lineOf (spoken history)).
Proof.
  unfold historyPreamble, spoken. rewrite List.map_map. reflexivity.
Qed.

End Instruction.

(** X25.  For a session that has a transcript, the instruction sent to the
    model depends only on who said what in the user's and the assistant's
    entries, in order: status entries and the ids of the entries play no
    part. *)
Theorem instruction_depends_on_spoken_only (SYSTEM_INSTRUCTION : JS.JSString)
    (h1 h2 : list Transcription.t) :
  h1 <> [] -> h2 <> [] ->
  SystemInstruction.spoken h1 = SystemInstruction.spoken h2 ->
  SystemInstruction.constructSystemInstruction SYSTEM_INSTRUCTION h1
  = SystemInstruction.constructSystemInstruction SYSTEM_INSTRUCTION h2.
Proof.
  intros N1 N2 E. unfold SystemInstruction.constructSystemInstruction.
  destruct h1 as [|a1 r1]; [now elim N1|].
  destruct h2 as [|a2 r2]; [now elim N2|].
  now rewrite !historyPreamble_spoken, E.
Qed.

Lemma instruction_depends_on_spoken_only_witness :
  SystemInstruction.constructSystemInstruction (JS.lit "You are Alex.")
    [Transcription.mk 1 status (JS.lit "Connected");
     Transcription.mk 2 user (JS.lit "I go to school")]
  = SystemInstruction.constructSystemInstruction (JS.lit "You are Alex.")
      [Transcription.mk 7 user (JS.lit "I go to school")].
Proof.
  apply instruction_depends_on_spoken_only; [discriminate|discriminate|reflexivity].
Defined.

(** ** The lobby of resumable sessions *)

Section LobbySorting.

Let newerFirst (a b : ContinuableSession.t) : Prop :=
  ContinuableSession.date b <= ContinuableSession.date a.

Lemma lobby_insertByDate_Permutation x l :
  Permutation (x :: l) (Lobby.insertByDate x l).
Proof.
  induction l as [|y r IH]; simpl; [reflexivity|].
  destruct (ContinuableSession.date y <=? ContinuableSession.date x);
    [reflexivity|].
  rewrite perm_swap. now apply perm_skip.
Qed.

Lemma lobby_sortByDateDesc_Permutation l : Permutation l (Lobby.sortByDateDesc l).
Proof.
  induction l as [|x r IH]; simpl; [reflexivity|].
  rewrite <- lobby_insertByDate_Permutation. now apply perm_skip.
Qed.

Lemma lobby_insertByDate_sorted x l :
  StronglySorted newerFirst l ->
  StronglySorted newerFirst (Lobby.insertByDate x l).
Proof.
  induction 1 as [|y r Hs IH Hy]; simpl.
  - repeat constructor.
  - destruct (ContinuableSession.date y <=? ContinuableSession.date x) eqn:E.
    + apply Z.leb_le in E. constructor; [now constructor|].
      constructor; [exact E|].
      eapply Forall_impl; [|exact Hy]. unfold newerFirst. intros; lia.
    + apply Z.leb_gt in E. constructor; [exact IH|].
      eapply Permutation_Forall; [apply lobby_insertByDate_Permutation|].
      constructor; [unfold newerFirst; lia|exact Hy].
Qed.

Lemma lobby_sortByDateDesc_sorted l :
  StronglySorted newerFirst (Lobby.sortByDateDesc l).
Proof.
  induction l as [|x r IH]; simpl; [constructor|].
  now apply lobby_insertByDate_sorted.
Qed.

Lemma migrate_named s :
  exists c r, ContinuableSession.name (Lobby.migrate s) = Some (c :: r).
Proof.
  unfold Lobby.migrate. simpl.
  destruct (ContinuableSession.name s) as [[|c r]|]; simpl; eauto.
Qed.

Lemma filter_sublist {A} (f : A -> bool) (l : list A) :
  List.filter f l `sublist_of` l.
Proof.
  induction l as [|x r IH]; simpl; [constructor|].
  destruct (f x); now constructor.
Qed.

End LobbySorting.

(** X26.  When the stored session list can be read, the lobby shows exactly
    the stored sessions, each with a name that is not empty (its own, or the
    default one when it had none), arranged from the latest date to the
    earliest; nothing is written and the live state is as it was. *)
Theorem loadSessions_sorted_named (st : Lobby.State)
    (l : list ContinuableSession.t) :
  LocalStorage.sessions (LivePractice.storage (Lobby.live st)) = Stored l ->
  let shown := Lobby.continuableSessions (Lobby.loadSessions st) in
  Permutation shown (List.map Lobby.migrate l)
  /\ StronglySorted
       (fun a b => ContinuableSession.date b <= ContinuableSession.date a) shown
  /\ Forall (fun s => exists c r, ContinuableSession.name s = Some (c :: r)) shown
  /\ Lobby.live (Lobby.loadSessions st) = Lobby.live st.
Proof.
  intros Hl shown. subst shown. unfold Lobby.loadSessions. rewrite Hl. simpl.
  split; [symmetry; apply lobby_sortByDateDesc_Permutation|].
  split; [apply lobby_sortByDateDesc_sorted|].
  split; [|reflexivity].
  eapply Permutation_Forall; [apply lobby_sortByDateDesc_Permutation|].
  apply Forall_forall. intros s Hs. apply in_map_iff in Hs as (s0 & <- & _).
  apply migrate_named.
Qed.

Lemma loadSessions_sorted_named_witness :
  Permutation (Lobby.continuableSessions (Lobby.mounted LobbySamples.store))
    (List.map Lobby.migrate [LobbySamples.older; LobbySamples.newer]).
Proof.
  apply (loadSessions_sorted_named
           (Lobby.mkState (LivePractice.initialState LobbySamples.store) [] None
              (Some []))
           [LobbySamples.older; LobbySamples.newer]).
  reflexivity.
Defined.

(** X27.  A confirmed deletion leaves the shown list and the stored list
    equal, with no session of the deleted id in them and every other session
    kept in its order; a declined one changes nothing. *)
Theorem handleDeleteSession_removes (id : Z) (st : Lobby.State) :
  let st' := Lobby.handleDeleteSession true id st in
  LocalStorage.sessions (LivePractice.storage (Lobby.live st'))
  = Stored (Lobby.continuableSessions st')
  /\ Lobby.continuableSessions st' `sublist_of` Lobby.continuableSessions st
  /\ Forall (fun s => ContinuableSession.id s <> Some id)
       (Lobby.continuableSessions st')
  /\ (forall s, In s (Lobby.continuableSessions st) ->
                ContinuableSession.id s <> Some id ->
                In s (Lobby.continuableSessions st'))
  /\ Lobby.handleDeleteSession false id st = st.
Proof.
  intros st'. subst st'. unfold Lobby.handleDeleteSession. simpl.
  split; [reflexivity|]. split; [apply filter_sublist|].
  assert (Hid : forall s, Lobby.hasId id s = true <-> ContinuableSession.id s = Some id).
  { intros s. unfold Lobby.hasId. destruct (ContinuableSession.id s) as [i|].
    - rewrite Z.eqb_eq. split; [now intros ->|now intros [= ->]].
    - split; discriminate. }
  split; [|split; [|reflexivity]].
  - apply Forall_forall. intros s Hs. apply filter_In in Hs as (_ & Hs).
    intros E. apply Hid in E. now rewrite E in Hs.
  - intros s Hin Hne. apply filter_In. split; [exact Hin|].
    destruct (Lobby.hasId id s) eqn:E; [|reflexivity].
    apply Hid in E. now elim Hne.
Qed.

Lemma handleDeleteSession_removes_witness :
  In LobbySamples.newer
    (Lobby.continuableSessions
       (Lobby.handleDeleteSession true 1000 (Lobby.mounted LobbySamples.store))).
Proof.
  destruct (handleDeleteSession_removes 1000 (Lobby.mounted LobbySamples.store))
    as (_ & _ & _ & H & _).
  apply H; [left; reflexivity|discriminate].
Defined.

(** X28.  Confirming a name that is not blank changes names only: the shown
    sessions keep their number, order, ids, dates and transcripts, the ones
    with the edited id get the trimmed name and the others keep theirs, the
    stored list is the shown list, and the name box is closed and emptied. *)
Theorem handleConfirmRename_changes_names_only (st : Lobby.State) (id : Z)
    (name : JS.JSString) :
  Lobby.editingSessionId st = Some id -> id <> 0 ->
  Lobby.editingName st = Some name ->
  JS.truthy (JS.trim name) = true ->
  exists st',
    Lobby.handleConfirmRename st = Some st'
    /\ List.map ContinuableSession.id (Lobby.continuableSessions st')
       = List.map ContinuableSession.id (Lobby.continuableSessions st)
    /\ List.map ContinuableSession.date (Lobby.continuableSessions st')
       = List.map ContinuableSession.date (Lobby.continuableSessions st)
    /\ List.map ContinuableSession.transcript (Lobby.continuableSessions st')
       = List.map ContinuableSession.transcript (Lobby.continuableSessions st)
    /\ List.map ContinuableSession.name (Lobby.continuableSessions st')
       = List.map (fun s => if Lobby.hasId id s then Some (JS.trim name)
                            else ContinuableSession.name s)
           (Lobby.continuableSessions st)
    /\ LocalStorage.sessions (LivePractice.storage (Lobby.live st'))
       = Stored (Lobby.continuableSessions st')
    /\ Lobby.editingSessionId st' = None
    /\ Lobby.editingName st' = Some [].
Proof.
  intros Hid Hnz Hname Ht. unfold Lobby.handleConfirmRename.
  rewrite Hid, Hname, Ht. simpl.
  destruct (id =? 0) eqn:E; [apply Z.eqb_eq in E; now elim Hnz|]. simpl.
  eexists. split; [reflexivity|]. simpl.
  rewrite !List.map_map.
  repeat split; apply List.map_ext; intros s; now destruct (Lobby.hasId id s).
Qed.

Lemma handleConfirmRename_changes_names_only_witness :
  exists st',
    Lobby.handleConfirmRename LobbySamples.renaming = Some st'
    /\ List.map ContinuableSession.name (Lobby.continuableSessions st')
       = [Some (JS.lit "Travel"); Some LivePractice.defaultSessionName].
Proof.
  destruct (handleConfirmRename_changes_names_only LobbySamples.renaming 2000
              (JS.lit " Travel ")) as (st' & H1 & _ & _ & _ & H2 & _).
  - reflexivity.
  - discriminate.
  - reflexivity.
  - reflexivity.
  - exists st'. split; [exact H1|]. rewrite H2. reflexivity.
Defined.

(** ** Opening and closing the chat *)

(** X29.  [initChat] always ends with the loading flag off, the store
    untouched and exactly one message on screen, the assistant's: the whole
    greeting when the chat was created and the stream ended normally, the
    apology otherwise, the chunks received before a failure being dropped.
    The chat object is kept whenever it was created, also when the greeting
    failed.  Ending the session at that point closes the window without the
    save prompt. *)
Theorem initChat_outcome (created : bool) (now nowCatch : Z)
    (reply : ChatPractice.Reply) (ls : LocalStorage.t) :
  let r := ChatShell.initChat created now nowCatch reply (ChatShell.unopened ls) in
  snd r = ChatPractice.Val tt
  /\ ChatPractice.chat (fst r) = created
  /\ ChatPractice.isLoading (fst r) = false
  /\ ChatPractice.storage (fst r) = ls
  /\ ChatPractice.messages (fst r)
     = [if created && negb (ChatPractice.fails reply)
        then Message.mk now Ai (List.concat (ChatPractice.delivered reply))
        else Message.mk nowCatch Ai ChatShell.apologyText]
  /\ ChatShell.handleEndSession (ChatShell.mkState (fst r) false false false)
     = ChatShell.mkState (fst r) false false true.
Proof.
  destruct created, reply as [|chunks [|]]; repeat split; reflexivity.
Qed.

(** X30.  Saving a chat records the messages on screen, in order, as a
    conversation of type write in front of the history read back, counts one
    more writing session, and changes nothing else: the points, the streak,
    the date of last practice, the speaking sessions and the resumable
    sessions are as before.  It turns the saving flag on; the timer then turns
    it off, hides the prompt and closes the window. *)
Theorem chat_handleSave_records (now : Z) (st : ChatShell.State) :
  let ls := ChatPractice.storage (ChatShell.chatState st) in
  let st' := ChatShell.handleSave now st in
  let ls' := ChatPractice.storage (ChatShell.chatState st') in
  let p := Gamification.getProgress ls in
  let p' := Gamification.getProgress ls' in
  LocalStorage.history ls'
  = Stored (SavedConversation.mk now write now
              (List.map ChatShell.toTranscription
                 (ChatPractice.messages (ChatShell.chatState st)))
            :: History.getSavedConversations ls)
  /\ p' = ProgressData.mk (ProgressData.points p) (ProgressData.streak p)
            (ProgressData.lastPracticeDate p) (ProgressData.speakingSessions p)
            (ProgressData.writingSessions p + 1)
  /\ LocalStorage.sessions ls' = LocalStorage.sessions ls
  /\ ChatPractice.messages (ChatShell.chatState st')
     = ChatPractice.messages (ChatShell.chatState st)
  /\ ChatShell.isSaving st' = true
  /\ ChatShell.handleSaveTimeout st'
     = ChatShell.mkState (ChatShell.chatState st') false false true.
Proof.
  repeat split.
Qed.
